(** * SRF Super League crawler: fixture-to-clip matching

    A shallow embedding of [crawler.js] and the properties of its matching
    engine: keyword queries, clip validation, Standalone/Sendung preference,
    the schedule gate and the link store.

    Conventions of the embedding
    - JSON objects used as dictionaries ([teams], [match_combinations],
      [links.matches]) are [gmap string _]; JSON arrays are lists.
    - An optional field is an [option]; JavaScript truthiness of such a field
      is [truthy] (present and not the empty string).
    - Built-ins of the JavaScript host that the source calls but does not
      define ([String.prototype.toLowerCase], the [Date] constructor,
      [Date.prototype.setHours], [fetch], [setTimeout], the clock) are the
      fields of the class [Host].
    - [async] functions are computations in the monad [Async]: they thread
      the outside world and either return or throw. The state also keeps the
      list of the queries sent so far, which the properties refer to.
    - JSON values have the shape the code expects: strings where it reads
      strings, integers for matchday numbers and durations.
    - Console output and the parsing of [process.argv] are not modelled;
      [getMatchesToSearch] and [crawl] take [testMatchday] as an argument. *)

From Stdlib Require Import ZArith QArith String Ascii List Lia.
From stdpp Require Import base option list strings gmap pretty.

Local Open Scope string_scope.
Local Open Scope list_scope.
Local Open Scope Z_scope.

(** ** JavaScript helpers *)

(** Truthiness of an optional string: [undefined] and [''] are falsy. *)
Definition truthy (o : option string) : bool :=
  match o with
  | Some s => negb (String.eqb s "")
  | None => false
  end.

(** [a || b] on optional strings. *)
Definition js_or (a b : option string) : option string :=
  if truthy a then a else b.

(** [x || ''] *)
Definition or_empty (o : option string) : string :=
  match js_or o (Some "") with
  | Some s => s
  | None => ""
  end.

(** [s.includes(sub)]: [sub] occurs in [s] as a contiguous substring. *)
Fixpoint includes (s sub : string) : bool :=
  String.prefix sub s ||
  match s with
  | EmptyString => false
  | String _ s' => includes s' sub
  end.

(** [arr.includes(x)] on an array of strings. *)
Definition arr_includes (arr : list string) (x : string) : bool :=
  bool_decide (x ∈ arr).

(** [[...new Set(arr)]]: the elements in order of first insertion. *)
Definition Set_spread (arr : list string) : list string :=
  foldl (λ set x, if arr_includes set x then set else set ++ [x]) [] arr.

(** ** Data model *)

Module Video.
(** A record of [searchResultMediaList]; every field may be absent. *)
Record t := mk {
  title : option string;
  description : option string;
  show_title : option string;      (* video.show?.title *)
  date : option string;
  validFrom : option string;
  publishedDate : option string;
  duration : option Z;             (* milliseconds *)
  urn : option string
}.
End Video.

Module Team.
Record t := mk { keywords : option (list string) }.
End Team.

Module Combo.
Record t := mk { keywords : option (list string) }.
End Combo.

Module TeamsData.
(** teams.json *)
Record t := mk {
  teams : gmap string Team.t;
  match_combinations : option (gmap string Combo.t)
}.
End TeamsData.

Module Match.
(** One fixture of spielplan.json. *)
Record t := mk {
  home : string;
  away : string;
  date : string;
  searchStart : option string
}.
End Match.

Module Matchday.
Record t := mk { matchday : Z; matches : list Match.t }.
End Matchday.

Module Spielplan.
Record t := mk { matchdays : list Matchday.t }.
End Spielplan.

Inductive VideoType := Standalone | Sendung.

Module Link.
(** An entry of [links.matches]. *)
Record t := mk {
  url : option string;
  foundAt : string;
  title : option string;
  urn : option string;
  type : option VideoType
}.
End Link.

Module Links.
(** links.json *)
Record t := mk { lastUpdated : string; matches : gmap string Link.t }.
End Links.

Module Candidate.
(** An element of [matchesToSearch]:
    [{ matchday: matchday.matchday, ...match, matchKey }]. *)
Record t := mk { matchday : Z; fixture : Match.t; matchKey : string }.
End Candidate.

(** What [await fetch(url)] followed by [await response.json()] can give. *)
Inductive Body :=
| BodyNotJSON                                          (* response.json() rejects *)
| BodyJSON (searchResultMediaList : option (list Video.t)).

Inductive Response :=
| FetchRejects                                         (* transport failure *)
| Responds (ok : bool) (body : Body).

(** How an evaluation ends: normally with a value, or abruptly. *)
Inductive Completion (A : Type) :=
| Return (a : A)
| Throw.
Arguments Return {A} a.
Arguments Throw {A}.

(** A file on disk as [loadJSON] sees it. *)
Inductive File (A : Type) :=
| Missing                      (* readFileSync throws *)
| Unreadable                   (* readFileSync throws *)
| Unparseable                  (* JSON.parse throws *)
| Parsed (a : A).
Arguments Missing {A}.
Arguments Unreadable {A}.
Arguments Unparseable {A}.
Arguments Parsed {A} a.

Record Files := mkFiles {
  TEAMS_FILE : File TeamsData.t;
  SPIELPLAN_FILE : File Spielplan.t;
  LINKS_FILE : File Links.t
}.

(** How the process ends. *)
Inductive Exit := Exit0 | Exit1.

(** ** The JavaScript host *)

Class Host := {
  (** [String.prototype.toLowerCase] *)
  toLowerCase : string → string;
  (** [new Date(str).getTime()]; [None] is Invalid Date (NaN). *)
  Date_parse : string → option Z;
  (** [d.setHours(0, 0, 0, 0)] on a valid time value: local midnight of the
      local calendar day of [d], in the host's time zone. *)
  setHours0 : Z → Z;
  (** [new Date(t).toISOString()] *)
  toISOString : Z → string;
  (** The world outside the process: network, remote API, clock. *)
  World : Type;
  (** [new Date().getTime()] *)
  Date_now : World → Z;
  (** [fetch(`${API_BASE}?q=${encodeURIComponent(query)}`)], by query. *)
  fetch : string → World → Response * World;
  (** the world after [await new Promise(r => setTimeout(r, ms))] *)
  setTimeout : Z → World → World
}.

Section Crawler.
Context `{Host}.

(** ** Clip checks *)

(** [findTeamInText(text, teamName, teamsData)] *)
Definition findTeamInText (text teamName : string) (teamsData : TeamsData.t) : bool :=
  let textLower := toLowerCase text in
  let inKeywords :=
    match TeamsData.teams teamsData !! teamName with
    | Some teamInfo =>
        match Team.keywords teamInfo with
        | Some keywords =>
            existsb (λ keyword, includes textLower (toLowerCase keyword)) keywords
        | None => false
        end
    | None => false
    end in
  if inKeywords then true
  else if includes textLower (toLowerCase teamName) then true
  else false.

Definition MS_PER_DAY : Z := 1000 * 60 * 60 * 24.

(** [isVideoDateValid(video, matchDate)] *)
Definition isVideoDateValid (video : Video.t) (matchDate : string) : bool :=
  let videoDateStr :=
    js_or (js_or (Video.date video) (Video.validFrom video)) (Video.publishedDate video) in
  if negb (truthy videoDateStr) then false
  else
    match videoDateStr ≫= Date_parse, Date_parse matchDate with
    | Some videoDate, Some matchDateObj =>
        let videoDate := setHours0 videoDate in
        let matchDateObj := setHours0 matchDateObj in
        let diffDays : Q := Qmake (videoDate - matchDateObj) (Z.to_pos MS_PER_DAY) in
        if Qle_bool 0 diffDays && Qle_bool diffDays 2 then true else false
    | _, _ => false            (* NaN compares false *)
    end.

Definition MIN_DURATION_MS : Z := 90 * 1000.

(** [isVideoLongEnough(video)] *)
Definition isVideoLongEnough (video : Video.t) : bool :=
  let duration := default 0 (Video.duration video) in
  bool_decide (duration >= MIN_DURATION_MS).

Definition TITLE_BLACKLIST : list string :=
  ["trainer"; "coach"; "interview"; "pressekonferenz"; "vorstellung"; "bilanz";
   "analyse"; "vorschau"; "reaktion"; "stimmen"].

(** [isNotBlacklisted(video)] *)
Definition isNotBlacklisted (video : Video.t) : bool :=
  let title := toLowerCase (or_empty (Video.title video)) in
  negb (existsb (λ word, includes title word) TITLE_BLACKLIST).

(** The acceptance test of [crawl], inlined in its inner loop:
    [(homeFound || awayFound) && dateValid && longEnough]. *)
Definition isAcceptable (teams : TeamsData.t) (match_ : Match.t) (video : Video.t) : bool :=
  let title := or_empty (Video.title video) in
  let description := or_empty (Video.description video) in
  let showTitle := or_empty (Video.show_title video) in
  let fullText := title +:+ " " +:+ description +:+ " " +:+ showTitle in
  let homeFound := findTeamInText fullText (Match.home match_) teams in
  let awayFound := findTeamInText fullText (Match.away match_) teams in
  let dateValid := isVideoDateValid video (Match.date match_) in
  let longEnough := isVideoLongEnough video in
  (homeFound || awayFound) && dateValid && longEnough.

(** ** Keywords *)

(** [getAllKeywords(teamName, teamsData)] *)
Definition getAllKeywords (teamName : string) (teamsData : TeamsData.t) : list string :=
  match TeamsData.teams teamsData !! teamName with
  | Some teamInfo =>
      match Team.keywords teamInfo with
      | Some keywords => if bool_decide (0 < length keywords)%nat then keywords else [teamName]
      | None => [teamName]
      end
  | None => [teamName]
  end.

(** [getDerbyKeywords(homeTeam, awayTeam, teamsData)] *)
Definition getDerbyKeywords (homeTeam awayTeam : string) (teamsData : TeamsData.t) : list string :=
  match TeamsData.match_combinations teamsData with
  | None => []
  | Some match_combinations =>
      let key1 := homeTeam +:+ " vs " +:+ awayTeam in
      let key2 := awayTeam +:+ " vs " +:+ homeTeam in
      let combo :=
        match match_combinations !! key1 with
        | Some c => Some c
        | None => match_combinations !! key2
        end in
      match combo with
      | Some c => default [] (Combo.keywords c)
      | None => []
      end
  end.

(** The list [combinedSearches] that [crawl] builds for one fixture. *)
Definition combinedSearches (teams : TeamsData.t) (match_ : Match.t) : list string :=
  let homeKeywords := getAllKeywords (Match.home match_) teams in
  let awayKeywords := getAllKeywords (Match.away match_) teams in
  let derbyKeywords := getDerbyKeywords (Match.home match_) (Match.away match_) teams in
  let combinedSearches := [] in
  let combinedSearches :=
    combinedSearches ++ [default "undefined" (head homeKeywords) +:+ " " +:+
                         default "undefined" (head awayKeywords)] in
  let combinedSearches := foldl (λ cs dk, cs ++ [dk]) combinedSearches derbyKeywords in
  let allKeywords := Set_spread (homeKeywords ++ awayKeywords) in
  foldl (λ cs kw, if negb (arr_includes cs kw) then cs ++ [kw] else cs)
        combinedSearches allKeywords.

(** ** Schedule gate *)

Definition MAX_SEARCH_HOURS : Z := 6.

(** [`${matchday.matchday}_${match.home} - ${match.away}`] *)
Definition matchKey_of (matchday : Z) (match_ : Match.t) : string :=
  pretty matchday +:+ "_" +:+ Match.home match_ +:+ " - " +:+ Match.away match_.

(** [links.matches[matchKey] && links.matches[matchKey].url] *)
Definition hasUrl (links : Links.t) (matchKey : string) : bool :=
  match Links.matches links !! matchKey with
  | Some link => truthy (Link.url link)
  | None => false
  end.

(** [getMatchesToSearch(spielplan, links, testMatchday)]; [now] is the
    reading of [new Date()] at its first line. *)
Definition getMatchesToSearch (now : Z) (spielplan : Spielplan.t) (links : Links.t)
    (testMatchday : option Z) : list Candidate.t :=
  foldl (λ matchesToSearch matchday,
    if bool_decide (testMatchday ≠ None ∧ Some (Matchday.matchday matchday) ≠ testMatchday)
    then matchesToSearch
    else
      foldl (λ matchesToSearch match_,
        let matchKey := matchKey_of (Matchday.matchday matchday) match_ in
        let entry := Candidate.mk (Matchday.matchday matchday) match_ matchKey in
        if hasUrl links matchKey then matchesToSearch
        else if bool_decide (testMatchday ≠ None) then matchesToSearch ++ [entry]
        else if truthy (Match.searchStart match_) then
          match Match.searchStart match_ ≫= Date_parse with
          | Some searchTime =>
              let searchEndTime := searchTime + MAX_SEARCH_HOURS * 60 * 60 * 1000 in
              if bool_decide (now >= searchTime) && bool_decide (now <= searchEndTime)
              then matchesToSearch ++ [entry]
              else matchesToSearch
          | None => matchesToSearch
          end
        else matchesToSearch)
      matchesToSearch (Matchday.matches matchday))
    [] (Spielplan.matchdays spielplan).

(** [buildVideoUrl(urn)] *)
Definition buildVideoUrl (urn : option string) : string :=
  "https://www.srf.ch/play/tv/-/video/-?urn=" +:+ default "undefined" urn.

(** ** Asynchronous computations *)

(** The state threaded through a run: the outside world and the queries
    sent to the search API so far, oldest first. *)
Record State := mkState { world : World; issued : list string }.

Definition Async (A : Type) : Type := State → Completion A * State.

#[local] Instance Async_ret : MRet Async := λ A a st, (Return a, st).
#[local] Instance Async_bind : MBind Async := λ A B f m st,
  match m st with
  | (Return a, st') => f a st'
  | (Throw, st') => (Throw, st')
  end.

Definition throw {A} : Async A := λ st, (Throw, st).

Definition await_fetch (query : string) : Async Response := λ st,
  let '(response, w) := fetch query (world st) in
  (Return response, mkState w (issued st ++ [query])).

Definition await_timeout (ms : Z) : Async unit := λ st,
  (Return (), mkState (setTimeout ms (world st)) (issued st)).

Definition new_Date : Async Z := λ st, (Return (Date_now (world st)), st).

(** [searchVideos(query)] *)
Definition searchVideos (query : string) : Async (list Video.t) :=
  response ← await_fetch query;
  match response with
  | FetchRejects => throw
  | Responds ok body =>
      if negb ok then mret []
      else
        match body with
        | BodyNotJSON => throw
        | BodyJSON searchResultMediaList => mret (default [] searchResultMediaList)
        end
  end.

(** ** The search for one fixture *)

(** [!x] on a variable that is [null] or an object. *)
Definition isNull {A} (x : option A) : bool :=
  match x with Some _ => false | None => true end.

(** The inner loop of [crawl], [for (const video of results)], entered with
    the current values of [standaloneMatch] and [sendungMatch]. *)
Fixpoint scanResults (teams : TeamsData.t) (match_ : Match.t) (results : list Video.t)
    (standaloneMatch sendungMatch : option Video.t) : option Video.t * option Video.t :=
  match results with
  | [] => (standaloneMatch, sendungMatch)
  | video :: results =>
      let showTitle := or_empty (Video.show_title video) in
      let '(standaloneMatch, sendungMatch) :=
        if isAcceptable teams match_ video then
          if String.eqb showTitle "Sport-Clip" && isNull standaloneMatch
          then (Some video, sendungMatch)
          else if includes showTitle "Super League" && isNull sendungMatch
          then (standaloneMatch, Some video)
          else (standaloneMatch, sendungMatch)
        else (standaloneMatch, sendungMatch) in
      if negb (isNull standaloneMatch) then (standaloneMatch, sendungMatch)   (* break *)
      else scanResults teams match_ results standaloneMatch sendungMatch
  end.

(** The outer loop of [crawl], [for (const keyword of combinedSearches)],
    entered with the current values of [foundVideo] and [videoType]. *)
Fixpoint searchLoop (teams : TeamsData.t) (match_ : Match.t) (keywords : list string)
    (foundVideo : option Video.t) (videoType : option VideoType)
    : Async (option Video.t * option VideoType) :=
  match keywords with
  | [] => mret (foundVideo, videoType)
  | keyword :: keywords =>
      if negb (isNull foundVideo) then mret (foundVideo, videoType)           (* break *)
      else
        results ← searchVideos keyword;
        let '(standaloneMatch, sendungMatch) := scanResults teams match_ results None None in
        let '(foundVideo, videoType) :=
          if negb (isNull standaloneMatch) then (standaloneMatch, Some Standalone)
          else if negb (isNull sendungMatch) && isNull foundVideo
          then (sendungMatch, Some Sendung)
          else (foundVideo, videoType) in
        _ ← await_timeout 200;
        searchLoop teams match_ keywords foundVideo videoType
  end.

(** The body of [for (const match of matchesToSearch)]: search, then
    record the link. Returns the updated [links] and [foundCount]. *)
Definition searchMatch (teams : TeamsData.t) (links : Links.t) (foundCount : Z)
    (match_ : Candidate.t) : Async (Links.t * Z) :=
  '(foundVideo, videoType) ←
    searchLoop teams (Candidate.fixture match_)
               (combinedSearches teams (Candidate.fixture match_)) None None;
  match foundVideo with
  | Some video =>
      let videoUrl := buildVideoUrl (Video.urn video) in
      now ← new_Date;
      let link := Link.mk (Some videoUrl) (toISOString now) (Video.title video)
                          (Video.urn video) videoType in
      mret (Links.mk (Links.lastUpdated links)
                     (<[Candidate.matchKey match_ := link]> (Links.matches links)),
            foundCount + 1)
  | None => mret (links, foundCount)
  end.

Fixpoint forMatches (teams : TeamsData.t) (matchesToSearch : list Candidate.t)
    (links : Links.t) (foundCount : Z) : Async (Links.t * Z) :=
  match matchesToSearch with
  | [] => mret (links, foundCount)
  | match_ :: rest =>
      '(links, foundCount) ← searchMatch teams links foundCount match_;
      forMatches teams rest links foundCount
  end.

(** ** Files and the main function *)

(** [JSON.parse(fs.readFileSync(filePath, 'utf8'))] *)
Definition read_and_parse {A} (file : File A) : Completion A :=
  match file with
  | Parsed a => Return a
  | _ => Throw
  end.

(** [loadJSON(filePath)]: [None] is [null]. *)
Definition loadJSON {A} (file : File A) : option A :=
  match read_and_parse file with
  | Return a => Some a
  | Throw => None
  end.

(** [crawl()], with [testMatchday] as computed from [process.argv]. It
    returns how the process ends when no exception escapes, and the
    contents of links.json afterwards. *)
Definition crawl (files : Files) (testMatchday : option Z) : Async (Exit * File Links.t) :=
  let teams := loadJSON (TEAMS_FILE files) in
  let spielplan := loadJSON (SPIELPLAN_FILE files) in
  let links := loadJSON (LINKS_FILE files) in
  match teams, spielplan with
  | Some teams, Some spielplan =>
      now ← new_Date;
      let links := default (Links.mk (toISOString now) ∅) links in
      now ← new_Date;
      let matchesToSearch := getMatchesToSearch now spielplan links testMatchday in
      if bool_decide (length matchesToSearch = 0%nat) then mret (Exit0, LINKS_FILE files)
      else
        '(links, foundCount) ← forMatches teams matchesToSearch links 0;
        if bool_decide (foundCount > 0) then
          now ← new_Date;
          let links := Links.mk (toISOString now) (Links.matches links) in
          mret (Exit0, Parsed links)                               (* saveJSON *)
        else mret (Exit0, LINKS_FILE files)
  | _, _ => mret (Exit1, LINKS_FILE files)                         (* process.exit(1) *)
  end.

(** The program: [crawl().catch(error => { ...; process.exit(1); })]. *)
Definition main (files : Files) (testMatchday : option Z) (st : State)
    : Exit * File Links.t * State :=
  match crawl files testMatchday st with
  | (Return (exit, links_file), st') => (exit, links_file, st')
  | (Throw, st') => (Exit1, LINKS_FILE files, st')
  end.

End Crawler.

(** ** Notions used to state the properties *)

Section Notions.
Context `{Host}.

(** The first present (truthy) one of [date], [validFrom], [publishedDate]. *)
Definition clipDateField (video : Video.t) : option string :=
  head (omap (λ field, if truthy field then field else None)
             [Video.date video; Video.validFrom video; Video.publishedDate video]).

(** The difference in days between the local days of two time values. *)
Definition diffDays (videoDate matchDateObj : Z) : Q :=
  Qmake (setHours0 videoDate - setHours0 matchDateObj) 86400000.

(** The search window of a fixture is open at [now]: its [searchStart] has
    been reached and is at most [MAX_SEARCH_HOURS] old. *)
Definition searchWindowOpen (now : Z) (match_ : Match.t) : Prop :=
  ∃ s searchTime,
    Match.searchStart match_ = Some s ∧ s ≠ "" ∧ Date_parse s = Some searchTime ∧
    searchTime ≤ now ≤ searchTime + MAX_SEARCH_HOURS * 60 * 60 * 1000.

(** The team's first configured keyword, or the team identifier. *)
Definition primaryKeyword (teams : TeamsData.t) (team : string) : string :=
  match TeamsData.teams teams !! team ≫= Team.keywords with
  | Some (keyword :: _) => keyword
  | _ => team
  end.

(** An acceptable clip of the show 'Sport-Clip'. *)
Definition standaloneEligible (teams : TeamsData.t) (match_ : Match.t) (video : Video.t) : bool :=
  isAcceptable teams match_ video &&
  String.eqb (or_empty (Video.show_title video)) "Sport-Clip".

(** An acceptable clip of a show whose title contains 'Super League'. *)
Definition sendungEligible (teams : TeamsData.t) (match_ : Match.t) (video : Video.t) : bool :=
  isAcceptable teams match_ video &&
  includes (or_empty (Video.show_title video)) "Super League".

(** What one query's result list contributes when nothing was found yet. *)
Definition winner (teams : TeamsData.t) (match_ : Match.t) (results : list Video.t)
    : option Video.t * option VideoType :=
  match scanResults teams match_ results None None with
  | (Some video, _) => (Some video, Some Standalone)
  | (None, Some video) => (Some video, Some Sendung)
  | (None, None) => (None, None)
  end.

(** The state after the pause that ends an iteration of the keyword loop. *)
Definition paused (st : State) : State :=
  mkState (setTimeout 200 (world st)) (issued st).

(** The store that [crawl] starts from when links.json does not load. *)
Definition freshLinks (now : Z) : Links.t := Links.mk (toISOString now) ∅.

(** [files] with another links.json. *)
Definition with_links_file (files : Files) (links_file : File Links.t) : Files :=
  mkFiles (TEAMS_FILE files) (SPIELPLAN_FILE files) links_file.

End Notions.

(** ** A concrete host

    ASCII case folding, ISO 8601 dates ([YYYY-MM-DD] and
    [YYYY-MM-DDTHH:MM:SSZ]) of the years 0000 to 9999, the time zone UTC, and
    a remote API that answers each query from a fixed table. It gives the
    examples below a host to run on. *)

Module UTC.

Definition lower_ascii (c : ascii) : ascii :=
  let n := N_of_ascii c in
  if (65 <=? n)%N && (n <=? 90)%N then ascii_of_N (n + 32) else c.

Fixpoint toLowerCase (s : string) : string :=
  match s with
  | EmptyString => EmptyString
  | String c s' => String (lower_ascii c) (toLowerCase s')
  end.

Definition digit (c : ascii) : option Z :=
  let n := Z.of_N (N_of_ascii c) in
  if (48 <=? n) && (n <=? 57) then Some (n - 48) else None.

Fixpoint number_from (acc : Z) (s : string) : option Z :=
  match s with
  | EmptyString => Some acc
  | String c s' => d ← digit c; number_from (10 * acc + d) s'
  end.

Definition number (s : string) : option Z :=
  if String.eqb s "" then None else number_from 0 s.

Definition leap (y : Z) : bool :=
  (y mod 4 =? 0) && (negb (y mod 100 =? 0) || (y mod 400 =? 0)).

Definition days_in_month (y m : Z) : Z :=
  if m =? 2 then (if leap y then 29 else 28)
  else if (m =? 4) || (m =? 6) || (m =? 9) || (m =? 11) then 30
  else 31.

(** Days from 1970-01-01 to the civil date [y]-[m]-[d]. *)
Definition days_from_civil (y m d : Z) : Z :=
  let y := if m <=? 2 then y - 1 else y in
  let era := y / 400 in
  let yoe := y - era * 400 in
  let doy := (153 * (if 2 <? m then m - 3 else m + 9) + 2) / 5 + d - 1 in
  let doe := yoe * 365 + yoe / 4 - yoe / 100 + doy in
  era * 146097 + doe - 719468.

(** The civil date of a day number. *)
Definition civil_from_days (z : Z) : Z * Z * Z :=
  let z := z + 719468 in
  let era := z / 146097 in
  let doe := z - era * 146097 in
  let yoe := (doe - doe / 1460 + doe / 36524 - doe / 146096) / 365 in
  let doy := doe - (365 * yoe + yoe / 4 - yoe / 100) in
  let mp := (5 * doy + 2) / 153 in
  let d := doy - (153 * mp + 2) / 5 + 1 in
  let m := if mp <? 10 then mp + 3 else mp - 9 in
  (if m <=? 2 then yoe + era * 400 + 1 else yoe + era * 400, m, d).

Definition sub (s : string) (start len : nat) : string := String.substring start len s.

Definition Date_parse (s : string) : option Z :=
  let n := String.length s in
  if negb ((n =? 10)%nat || (n =? 20)%nat) then None
  else if negb (String.eqb (sub s 4 1) "-" && String.eqb (sub s 7 1) "-") then None
  else
    y ← number (sub s 0 4);
    m ← number (sub s 5 2);
    d ← number (sub s 8 2);
    if negb ((1 <=? m) && (m <=? 12) && (1 <=? d) && (d <=? days_in_month y m)) then None
    else
      let day := days_from_civil y m d * 86400000 in
      if (n =? 10)%nat then Some day
      else if negb (String.eqb (sub s 10 1) "T" && String.eqb (sub s 13 1) ":" &&
                    String.eqb (sub s 16 1) ":" && String.eqb (sub s 19 1) "Z") then None
      else
        hh ← number (sub s 11 2);
        mm ← number (sub s 14 2);
        ss ← number (sub s 17 2);
        if negb ((hh <=? 23) && (mm <=? 59) && (ss <=? 59)) then None
        else Some (day + hh * 3600000 + mm * 60000 + ss * 1000).

(** Local midnight in UTC. *)
Definition setHours0 (t : Z) : Z := t - t mod 86400000.

(** [n] in decimal, zero-padded to [width] digits. *)
Fixpoint pad (width : nat) (n : Z) : string :=
  match width with
  | O => ""
  | S w => pad w (n / 10) +:+ String (ascii_of_N (Z.to_N (48 + n mod 10))) ""
  end.

Definition toISOString (t : Z) : string :=
  let '(y, m, d) := civil_from_days (t / 86400000) in
  let r := t mod 86400000 in
  pad 4 y +:+ "-" +:+ pad 2 m +:+ "-" +:+ pad 2 d +:+ "T" +:+
  pad 2 (r / 3600000) +:+ ":" +:+ pad 2 (r / 60000 mod 60) +:+ ":" +:+
  pad 2 (r / 1000 mod 60) +:+ "." +:+ pad 3 (r mod 1000) +:+ "Z".

(** The world: a clock and the table of the remote API. A query that the
    table does not list is answered with an empty result list. *)
Record World := mkWorld { clock : Z; api : list (string * Response) }.

Fixpoint answer (table : list (string * Response)) (query : string) : Response :=
  match table with
  | [] => Responds true (BodyJSON (Some []))
  | (q, r) :: table => if String.eqb q query then r else answer table query
  end.

Definition fetch (query : string) (w : World) : Response * World :=
  (answer (api w) query, w).

Definition setTimeout (ms : Z) (w : World) : World :=
  mkWorld (clock w + ms) (api w).

Definition host : Host :=
  Build_Host toLowerCase Date_parse setHours0 toISOString World clock fetch setTimeout.

End UTC.

(** ** Sample data

    The fixture FC A against FC B of matchday 5, played on 2024-03-10, with
    the clips that the examples search for it. *)

Module Demo.

Definition teams : TeamsData.t :=
  TeamsData.mk
    (list_to_map [("FC A", Team.mk (Some ["FC A"; "Club A"]));
                  ("FC B", Team.mk (Some ["FC B"]))])
    None.

(** The same teams with a derby entry, registered as away against home. *)
Definition teams_derby : TeamsData.t :=
  TeamsData.mk (TeamsData.teams teams)
    (Some (list_to_map [("FC B vs FC A", Combo.mk (Some ["Derby AB"; "FC A FC B"]))])).

Definition fixture : Match.t :=
  Match.mk "FC A" "FC B" "2024-03-10" (Some "2024-03-10T18:00:00Z").

(** A fixture of the same matchday whose search starts a year later. *)
Definition future_fixture : Match.t :=
  Match.mk "FC C" "FC D" "2025-03-10" (Some "2025-03-10T18:00:00Z").

Definition other_fixture : Match.t :=
  Match.mk "FC B" "FC A" "2024-03-17" (Some "2024-03-17T18:00:00Z").

Definition spielplan : Spielplan.t :=
  Spielplan.mk [Matchday.mk 5 [fixture; future_fixture]; Matchday.mk 6 [other_fixture]].

Definition clip (title showTitle date : string) (duration : option Z) (urn : string)
    : Video.t :=
  Video.mk (Some title) None (Some showTitle) (Some date) None None duration (Some urn).

Definition highlight : Video.t :=
  clip "FC A - FC B Highlights" "Sport-Clip" "2024-03-10T21:30:00Z" (Some 95000)
       "urn:srf:video:1".

Definition broadcast : Video.t :=
  clip "Super League vom Sonntag: FC A, FC B" "Super League - Highlights"
       "2024-03-10T22:00:00Z" (Some 600000) "urn:srf:video:2".

Definition interview : Video.t :=
  clip "Trainer-Interview FC A" "Sport-Clip" "2024-03-10T20:00:00Z" (Some 120000)
       "urn:srf:video:3".

Definition news : Video.t :=
  clip "FC A - FC B" "Tagesschau" "2024-03-10T19:30:00Z" (Some 95000) "urn:srf:video:4".

Definition no_duration : Video.t :=
  clip "FC A - FC B Highlights" "Sport-Clip" "2024-03-10T21:30:00Z" None "urn:srf:video:5".

(** A clip of the given date and nothing else. *)
Definition dated (date : string) : Video.t :=
  Video.mk None None None None (Some date) None None None.

Definition undated : Video.t :=
  Video.mk (Some "FC A - FC B") None None (Some "") None None (Some 95000) None.

(** 2024-03-10T22:00:00Z, four hours into the fixture's search window. *)
Definition evening : Z := 1710108000000.

(** 2024-03-12T08:00:00Z, after the search window. *)
Definition two_days_later : Z := 1710230400000.

Definition start (now : Z) (api : list (string * Response)) : State (H := UTC.host) :=
  mkState (H := UTC.host) (UTC.mkWorld now api) [].

Definition found (results : list Video.t) : Response :=
  Responds true (BodyJSON (Some results)).

Definition link_of (video : Video.t) (foundAt : string) (type : VideoType) : Link.t :=
  Link.mk (Some (buildVideoUrl (Video.urn video))) foundAt (Video.title video)
          (Video.urn video) (Some type).

(** A store in which the fixture is resolved. *)
Definition links : Links.t :=
  Links.mk "2024-03-10T22:00:00.000Z"
    {[ "5_FC A - FC B" := link_of highlight "2024-03-10T22:00:00.000Z" Standalone ]}.

Definition files (links_file : File Links.t) : Files :=
  mkFiles (Parsed teams) (Parsed spielplan) links_file.

End Demo.

(** ** The earlier variant of the crawler

    The second script of the repository searches one fixture with the home
    team's first keyword and, if that stores nothing, with the away team's;
    it checks neither date nor duration, and its keys do not carry the
    matchday. [loadJSON], [searchVideos], [findTeamInText] and
    [buildVideoUrl] are the same in both scripts. *)

Module Legacy.
Section Crawler.
Context `{Host}.
#[local] Existing Instance Async_ret.
#[local] Existing Instance Async_bind.

(** [getSearchKeyword(teamName, teamsData)] *)
Definition getSearchKeyword (teamName : string) (teamsData : TeamsData.t) : string :=
  match TeamsData.teams teamsData !! teamName with
  | Some teamInfo =>
      match Team.keywords teamInfo with
      | Some (keyword :: _) => keyword
      | _ => teamName
      end
  | None => teamName
  end.

(** [`${match.home} - ${match.away}`] *)
Definition matchKey_of (match_ : Match.t) : string :=
  Match.home match_ +:+ " - " +:+ Match.away match_.

(** [getMatchesToSearch(spielplan, links, testMatchday)] *)
Definition getMatchesToSearch (now : Z) (spielplan : Spielplan.t) (links : Links.t)
    (testMatchday : option Z) : list Candidate.t :=
  foldl (λ matchesToSearch matchday,
    if bool_decide (testMatchday ≠ None ∧ Some (Matchday.matchday matchday) ≠ testMatchday)
    then matchesToSearch
    else
      foldl (λ matchesToSearch match_,
        let matchKey := matchKey_of match_ in
        let entry := Candidate.mk (Matchday.matchday matchday) match_ matchKey in
        if hasUrl links matchKey then matchesToSearch
        else if bool_decide (testMatchday ≠ None) then matchesToSearch ++ [entry]
        else if truthy (Match.searchStart match_) then
          match Match.searchStart match_ ≫= Date_parse with
          | Some searchTime =>
              let searchEndTime := searchTime + MAX_SEARCH_HOURS * 60 * 60 * 1000 in
              if bool_decide (now >= searchTime) && bool_decide (now <= searchEndTime)
              then matchesToSearch ++ [entry]
              else matchesToSearch
          | None => matchesToSearch
          end
        else matchesToSearch)
      matchesToSearch (Matchday.matches matchday))
    [] (Spielplan.matchdays spielplan).

(** The test of the result loops: [homeFound || awayFound]. *)
Definition mentionsTeam (teams : TeamsData.t) (match_ : Match.t) (video : Video.t) : bool :=
  let title := or_empty (Video.title video) in
  let description := or_empty (Video.description video) in
  let showTitle := or_empty (Video.show_title video) in
  let fullText := title +:+ " " +:+ description +:+ " " +:+ showTitle in
  let homeFound := findTeamInText fullText (Match.home match_) teams in
  let awayFound := findTeamInText fullText (Match.away match_) teams in
  homeFound || awayFound.

(** The loop [for (const video of results)], which both searches run. *)
Fixpoint scanResults (teams : TeamsData.t) (match_ : Match.t) (results : list Video.t)
    (standaloneMatch sendungMatch : option Video.t) : option Video.t * option Video.t :=
  match results with
  | [] => (standaloneMatch, sendungMatch)
  | video :: results =>
      let showTitle := or_empty (Video.show_title video) in
      let '(standaloneMatch, sendungMatch) :=
        if mentionsTeam teams match_ video then
          if String.eqb showTitle "Sport-Clip" && isNull standaloneMatch
          then (Some video, sendungMatch)
          else if includes showTitle "Super League" && isNull sendungMatch
          then (standaloneMatch, Some video)
          else (standaloneMatch, sendungMatch)
        else (standaloneMatch, sendungMatch) in
      if negb (isNull standaloneMatch) then (standaloneMatch, sendungMatch)   (* break *)
      else scanResults teams match_ results standaloneMatch sendungMatch
  end.

(** One search with its scan and the storing of what it found. *)
Definition searchAndStore (teams : TeamsData.t) (links : Links.t) (foundCount : Z)
    (match_ : Candidate.t) (keyword : string) : Async (Links.t * Z) :=
  results ← searchVideos keyword;
  let '(standaloneMatch, sendungMatch) :=
    scanResults teams (Candidate.fixture match_) results None None in
  let foundVideo := if negb (isNull standaloneMatch) then standaloneMatch else sendungMatch in
  match foundVideo with
  | Some video =>
      let videoUrl := buildVideoUrl (Video.urn video) in
      let videoType := if negb (isNull standaloneMatch) then Standalone else Sendung in
      now ← new_Date;
      let link := Link.mk (Some videoUrl) (toISOString now) (Video.title video)
                          (Video.urn video) (Some videoType) in
      mret (Links.mk (Links.lastUpdated links)
                     (<[Candidate.matchKey match_ := link]> (Links.matches links)),
            foundCount + 1)
  | None => mret (links, foundCount)
  end.

(** The body of [for (const match of matchesToSearch)]. *)
Definition searchMatch (teams : TeamsData.t) (links : Links.t) (foundCount : Z)
    (match_ : Candidate.t) : Async (Links.t * Z) :=
  let homeKeyword := getSearchKeyword (Match.home (Candidate.fixture match_)) teams in
  '(links, foundCount) ← searchAndStore teams links foundCount match_ homeKeyword;
  '(links, foundCount) ←
    (if negb (hasUrl links (Candidate.matchKey match_)) then
       let awayKeyword := getSearchKeyword (Match.away (Candidate.fixture match_)) teams in
       if negb (String.eqb awayKeyword homeKeyword)
       then searchAndStore teams links foundCount match_ awayKeyword
       else mret (links, foundCount)
     else mret (links, foundCount));
  _ ← await_timeout 300;
  mret (links, foundCount).

End Crawler.
End Legacy.

(** ** More sample data *)

Module Cases.

(** FC A has an empty keyword. *)
Definition teams_blank : TeamsData.t :=
  TeamsData.mk (list_to_map [("FC A", Team.mk (Some ["FC A"; ""]))]) None.

(** A clip with an unusable [date] and a usable [validFrom]. *)
Definition bad_date : Video.t :=
  Video.mk (Some "FC A - FC B Highlights") None (Some "Sport-Clip") (Some "gestern")
           (Some "2024-03-10T21:30:00Z") None (Some 95000) (Some "urn:srf:video:6").

(** The fixture of [Demo] without a usable date. *)
Definition undated_fixture : Match.t :=
  Match.mk "FC A" "FC B" "offen" (Some "2024-03-10T18:00:00Z").

Definition future_clip : Video.t :=
  Demo.clip "FC C - FC D" "Sport-Clip" "2025-03-10T21:00:00Z" (Some 100000)
            "urn:srf:video:9".

(** The fixture of [Demo] once more, on matchday 23. *)
Definition spielplan_return : Spielplan.t :=
  Spielplan.mk [Matchday.mk 5 [Demo.fixture]; Matchday.mk 23 [Demo.fixture]].

Definition legacy_links : Links.t :=
  Links.mk "2024-03-10T22:00:00.000Z"
    {[ "FC A - FC B" := Demo.link_of Demo.highlight "2024-03-10T22:00:00.000Z" Standalone ]}.

(** A clip of the year before, ten seconds long. *)
Definition old_short : Video.t :=
  Demo.clip "FC A - FC B Tor" "Sport-Clip" "2023-03-10T21:30:00Z" (Some 10000)
            "urn:srf:video:7".

End Cases.

(** ** Hosts in other time zones

    [setHours(0, 0, 0, 0)] for a host on Central European Time with its
    summer time (Europe/Zurich), and for a host five hours west of UTC without
    summer time (America/Bogota). Everything else is as on the UTC host. *)

Module Zurich.

(** Day number of the last Sunday up to the civil date [y]-[m]-[d]; day 0,
    1970-01-01, was a Thursday. *)
Definition last_sunday (y m d : Z) : Z :=
  let day := UTC.days_from_civil y m d in
  day - (day + 4) mod 7.

(** Summer time runs from 01:00 UTC on the last Sunday of March to 01:00 UTC
    on the last Sunday of October. *)
Definition summer_time (t : Z) : bool :=
  let '(y, _, _) := UTC.civil_from_days (t / 86400000) in
  (last_sunday y 3 31 * 86400000 + 3600000 <=? t) &&
  (t <? last_sunday y 10 31 * 86400000 + 3600000).

(** The offset of local time from UTC at the time value [t]. *)
Definition offset (t : Z) : Z :=
  if summer_time t then 7200000 else 3600000.

(** The number of the local calendar day of [t]. *)
Definition localDay (t : Z) : Z := (t + offset t) / 86400000.

(** The time value of 00:00 local time on the local calendar day of [t].
    Midnight is never skipped or repeated: the clocks change at 02:00 and
    at 03:00. *)
Definition setHours0 (t : Z) : Z :=
  let midnight := localDay t * 86400000 in
  if summer_time (midnight - 7200000) then midnight - 7200000 else midnight - 3600000.

Definition host : Host :=
  Build_Host UTC.toLowerCase UTC.Date_parse setHours0 UTC.toISOString
             UTC.World UTC.clock UTC.fetch UTC.setTimeout.

(** A fixture on the Saturday before the clocks go back, and its
    Standalone clip, published on the Monday after. *)
Definition fixture : Match.t :=
  Match.mk "FC A" "FC B" "2024-10-26" (Some "2024-10-26T18:00:00Z").

Definition clip : Video.t :=
  Demo.clip "FC A - FC B Highlights" "Sport-Clip" "2024-10-28T10:00:00Z" (Some 95000)
            "urn:srf:video:8".

Definition start (now : Z) (api : list (string * Response)) : State (H := host) :=
  mkState (H := host) (UTC.mkWorld now api) [].

End Zurich.

Module Bogota.

Definition offset : Z := -18000000.

Definition localDay (t : Z) : Z := (t + offset) / 86400000.

Definition setHours0 (t : Z) : Z := localDay t * 86400000 - offset.

Definition host : Host :=
  Build_Host UTC.toLowerCase UTC.Date_parse setHours0 UTC.toISOString
             UTC.World UTC.clock UTC.fetch UTC.setTimeout.

End Bogota.

(** * Properties *)

Section Properties.
Context `{Host}.

Implicit Types (teams : TeamsData.t) (video : Video.t).
Implicit Types (links : Links.t) (spielplan : Spielplan.t) (st : State).

(** ** Truthiness and lists *)

Lemma truthy_Some (o : option string) :
  truthy o = true ↔ ∃ s, o = Some s ∧ s ≠ "".
Proof.
  destruct o as [s|]; simpl.
  - rewrite negb_true_iff. split.
    + intros Hs. exists s. split; [done|]. intros ->. by rewrite String.eqb_refl in Hs.
    + intros (s' & [= <-] & Hne). by apply String.eqb_neq.
  - split; [done | by intros (? & ? & ?)].
Qed.

Lemma foldl_push {A B} (step : list B → A → list B) (g : A → list B) (l : list A) acc :
  (∀ acc x, step acc x = acc ++ g x) → foldl step acc l = acc ++ (l ≫= g).
Proof.
  intros Hstep. revert acc. induction l as [|x l IH]; intros acc; simpl.
  - by rewrite app_nil_r.
  - by rewrite Hstep, IH, app_assoc.
Qed.

(** ** The schedule gate *)

Lemma searchWindowOpen_gate now (match_ : Match.t) :
  searchWindowOpen now match_ ↔
  truthy (Match.searchStart match_) = true ∧
  ∃ searchTime, Match.searchStart match_ ≫= Date_parse = Some searchTime ∧
    bool_decide (now >= searchTime) &&
    bool_decide (now <= searchTime + MAX_SEARCH_HOURS * 60 * 60 * 1000) = true.
Proof.
  unfold searchWindowOpen. rewrite truthy_Some. split.
  - intros (s & t & Hs & Hne & Hp & Hw). split; [by eauto|].
    exists t. rewrite Hs. simpl. split; [done|].
    apply andb_true_iff. rewrite !bool_decide_eq_true. lia.
  - intros [(s & Hs & Hne) (t & Hp & Hw)]. exists s, t.
    rewrite Hs in Hp. simpl in Hp.
    apply andb_true_iff in Hw. rewrite !bool_decide_eq_true in Hw.
    repeat split; [done..|lia|lia].
Qed.

(** The candidates that one fixture contributes. *)
Lemma getMatchesToSearch_bind now spielplan links testMatchday :
  getMatchesToSearch now spielplan links testMatchday =
  Spielplan.matchdays spielplan ≫= λ matchday,
    if bool_decide (testMatchday ≠ None ∧ Some (Matchday.matchday matchday) ≠ testMatchday)
    then []
    else Matchday.matches matchday ≫= λ match_,
      let matchKey := matchKey_of (Matchday.matchday matchday) match_ in
      let entry := Candidate.mk (Matchday.matchday matchday) match_ matchKey in
      if hasUrl links matchKey then []
      else if bool_decide (testMatchday ≠ None) then [entry]
      else if truthy (Match.searchStart match_) then
        match Match.searchStart match_ ≫= Date_parse with
        | Some searchTime =>
            if bool_decide (now >= searchTime) &&
               bool_decide (now <= searchTime + MAX_SEARCH_HOURS * 60 * 60 * 1000)
            then [entry] else []
        | None => []
        end
      else [].
Proof.
  unfold getMatchesToSearch.
  match goal with |- _ = ?r => change r with ([] ++ r) end.
  apply foldl_push.
  intros acc matchday. case_bool_decide; [by rewrite app_nil_r|].
  apply foldl_push. intros acc' match_. cbv zeta.
  repeat case_match; by rewrite ?app_nil_r.
Qed.

Lemma elem_of_getMatchesToSearch now spielplan links testMatchday (c : Candidate.t) :
  c ∈ getMatchesToSearch now spielplan links testMatchday ↔
  ∃ matchday match_,
    matchday ∈ Spielplan.matchdays spielplan ∧
    match_ ∈ Matchday.matches matchday ∧
    c = Candidate.mk (Matchday.matchday matchday) match_
          (matchKey_of (Matchday.matchday matchday) match_) ∧
    hasUrl links (matchKey_of (Matchday.matchday matchday) match_) = false ∧
    match testMatchday with
    | Some d => Matchday.matchday matchday = d
    | None => searchWindowOpen now match_
    end.
Proof.
  rewrite getMatchesToSearch_bind, list_elem_of_bind.
  split.
  - intros (matchday & Hc & Hmd). exists matchday.
    case_bool_decide as Hskip; [by apply elem_of_nil in Hc|].
    apply list_elem_of_bind in Hc as (match_ & Hc & Hm). exists match_.
    cbv zeta in Hc.
    destruct (hasUrl links _) eqn:Hurl; [by apply elem_of_nil in Hc|].
    destruct testMatchday as [d|].
    + rewrite bool_decide_true in Hc by done.
      apply list_elem_of_singleton in Hc.
      repeat split; [done..|].
      destruct (decide (Matchday.matchday matchday = d)) as [|Hne]; [done|].
      exfalso. apply Hskip. split; [done|]. congruence.
    + rewrite bool_decide_false in Hc by (intros Hn; by apply Hn).
      destruct (truthy _) eqn:Htr; [|by apply elem_of_nil in Hc].
      destruct (_ ≫= Date_parse) as [t|] eqn:Hp; [|by apply elem_of_nil in Hc].
      destruct (_ && _) eqn:Hw; [|by apply elem_of_nil in Hc].
      apply list_elem_of_singleton in Hc.
      repeat split; [done..|].
      apply searchWindowOpen_gate. split; [done|]. exists t. by rewrite Hp.
  - intros (matchday & match_ & Hmd & Hm & -> & Hurl & Hgate).
    exists matchday. split; [|done].
    rewrite bool_decide_false.
    2:{ intros [Hn Hne]. destruct testMatchday; [subst; by apply Hne | by apply Hn]. }
    apply list_elem_of_bind. exists match_. split; [|done].
    cbv zeta. rewrite Hurl.
    destruct testMatchday as [d|].
    + rewrite bool_decide_true by done. by apply list_elem_of_singleton.
    + rewrite bool_decide_false by (intros Hn; by apply Hn).
      apply searchWindowOpen_gate in Hgate as [Htr (t & Hp & Hw)].
      rewrite Htr, Hp, Hw. by apply list_elem_of_singleton.
Qed.

Lemma hasUrl_true links (matchKey : string) :
  hasUrl links matchKey = true ↔
  ∃ link u, Links.matches links !! matchKey = Some link ∧ Link.url link = Some u ∧ u ≠ "".
Proof.
  unfold hasUrl. destruct (Links.matches links !! matchKey) as [link|].
  - rewrite truthy_Some. split.
    + intros (u & ? & ?). by exists link, u.
    + intros (? & u & [= <-] & ? & ?). by exists u.
  - split; [done | by intros (? & ? & ? & _)].
Qed.

(** C3. A fixture whose key has a link with a non-empty url in the link
    store is not in the candidate set that [getMatchesToSearch] computes,
    in normal mode and in test mode alike: no candidate carries its key, and
    no candidate is that fixture. *)
Theorem resolved_fixture_never_candidate now spielplan links (testMatchday : option Z)
    (matchday : Z) (match_ : Match.t) (link : Link.t) (u : string)
    (Hlink : Links.matches links !! matchKey_of matchday match_ = Some link)
    (Hurl : Link.url link = Some u)
    (Hnonempty : u ≠ "") :
  ∀ c, c ∈ getMatchesToSearch now spielplan links testMatchday →
    Candidate.matchKey c ≠ matchKey_of matchday match_ ∧
    ¬ (Candidate.matchday c = matchday ∧ Candidate.fixture c = match_).
Proof.
  assert (hasUrl links (matchKey_of matchday match_) = true) as Hresolved.
  { apply hasUrl_true. by exists link, u. }
  intros c (md & m & _ & _ & -> & Hfree & _)%elem_of_getMatchesToSearch. simpl.
  split.
  - intros Hkey. rewrite Hkey in Hfree. congruence.
  - intros [<- <-]. congruence.
Qed.

(** C8. In test mode for matchday [d] the candidate set consists exactly of
    the fixtures of the schedule entries numbered [d] whose key has no link
    with a url; neither the clock nor any [searchStart] has a say. *)
Theorem test_mode_candidates spielplan links (d : Z) :
  (∀ now (c : Candidate.t),
     c ∈ getMatchesToSearch now spielplan links (Some d) ↔
     ∃ matchday (match_ : Match.t),
       matchday ∈ Spielplan.matchdays spielplan ∧
       Matchday.matchday matchday = d ∧
       match_ ∈ Matchday.matches matchday ∧
       hasUrl links (matchKey_of d match_) = false ∧
       c = Candidate.mk d match_ (matchKey_of d match_)) ∧
  (∀ now now', getMatchesToSearch now spielplan links (Some d) =
               getMatchesToSearch now' spielplan links (Some d)).
Proof.
  split.
  - intros now c. rewrite elem_of_getMatchesToSearch. split.
    + intros (md & m & Hmd & Hm & -> & Hfree & <-). by exists md, m.
    + intros (md & m & Hmd & <- & Hm & Hfree & ->). by exists md, m.
  - intros now now'. rewrite !getMatchesToSearch_bind. reflexivity.
Qed.

(** ** Scanning one result list *)

Lemma split_at_first {A} (p : A → bool) (l : list A) :
  (∀ x, x ∈ l → p x = false) ∨
  ∃ pre x post, l = pre ++ x :: post ∧ (∀ y, y ∈ pre → p y = false) ∧ p x = true.
Proof.
  induction l as [|a l IH].
  - left. by intros x ?%elem_of_nil.
  - destruct (p a) eqn:Ha.
    + right. exists [], a, l. split; [done|]. split; [|done]. by intros y ?%elem_of_nil.
    + destruct IH as [Hall | (pre & x & post & -> & Hpre & Hx)].
      * left. intros x [->|?]%elem_of_cons; auto.
      * right. exists (a :: pre), x, post. split; [done|]. split; [|done].
        intros y [->|?]%elem_of_cons; auto.
Qed.

(** One iteration that does not meet a Standalone clip. *)
Lemma scanResults_skip teams (match_ : Match.t) video results (sendungMatch : option Video.t) :
  standaloneEligible teams match_ video = false →
  scanResults teams match_ (video :: results) None sendungMatch =
  scanResults teams match_ results None
    (match sendungMatch with
     | Some b => Some b
     | None => if sendungEligible teams match_ video then Some video else None
     end).
Proof.
  unfold standaloneEligible, sendungEligible. intros Hno. simpl.
  destruct (isAcceptable teams match_ video); simpl in *.
  - rewrite Hno. simpl.
    destruct (includes _ _), sendungMatch; reflexivity.
  - destruct sendungMatch; reflexivity.
Qed.

(** The iteration that meets a Standalone clip ends the loop. *)
Lemma scanResults_break teams (match_ : Match.t) video results (sendungMatch : option Video.t) :
  standaloneEligible teams match_ video = true →
  scanResults teams match_ (video :: results) None sendungMatch = (Some video, sendungMatch).
Proof.
  unfold standaloneEligible. intros [Hacc Hshow]%andb_true_iff. simpl.
  by rewrite Hacc, Hshow.
Qed.

Lemma scanResults_no_standalone teams (match_ : Match.t) results (sendungMatch : option Video.t) :
  (∀ v, v ∈ results → standaloneEligible teams match_ v = false) →
  scanResults teams match_ results None sendungMatch =
  (None, match sendungMatch with
         | Some b => Some b
         | None => List.find (sendungEligible teams match_) results
         end).
Proof.
  revert sendungMatch. induction results as [|v results IH]; intros sendungMatch Hall.
  - by destruct sendungMatch.
  - rewrite scanResults_skip by (apply Hall; left).
    rewrite IH by (intros; apply Hall; by right).
    simpl. destruct sendungMatch; [done|]. by destruct (sendungEligible _ _ v).
Qed.

Lemma scanResults_first_standalone teams (match_ : Match.t) pre s post
    (sendungMatch : option Video.t) :
  (∀ v, v ∈ pre → standaloneEligible teams match_ v = false) →
  standaloneEligible teams match_ s = true →
  scanResults teams match_ (pre ++ s :: post) None sendungMatch =
  (Some s, match sendungMatch with
           | Some b => Some b
           | None => List.find (sendungEligible teams match_) pre
           end).
Proof.
  revert sendungMatch. induction pre as [|v pre IH]; intros sendungMatch Hpre Hs.
  - simpl app. rewrite scanResults_break by done. by destruct sendungMatch.
  - simpl app. rewrite scanResults_skip by (apply Hpre; left).
    rewrite IH by (try done; intros; apply Hpre; by right).
    simpl. destruct sendungMatch; [done|]. by destruct (sendungEligible _ _ v).
Qed.

(** Whatever the scan retains is an acceptable clip of the result list. *)
Lemma scanResults_retains teams (match_ : Match.t) results standaloneMatch sendungMatch video :
  scanResults teams match_ results None None = (standaloneMatch, sendungMatch) →
  standaloneMatch = Some video ∨ sendungMatch = Some video →
  video ∈ results ∧ isAcceptable teams match_ video = true.
Proof.
  intros Hscan Hv.
  destruct (split_at_first (standaloneEligible teams match_) results)
    as [Hall | (pre & s & post & -> & Hpre & Hs)].
  - rewrite scanResults_no_standalone in Hscan by done.
    injection Hscan as <- <-. destruct Hv as [?|Hfind]; [done|].
    apply find_some in Hfind as [Hin Hel].
    split; [by apply list_elem_of_In|].
    by apply andb_true_iff in Hel as [? _].
  - rewrite scanResults_first_standalone in Hscan by done.
    injection Hscan as <- <-. destruct Hv as [[= <-]|Hfind].
    + split; [apply elem_of_app; right; left|].
      by apply andb_true_iff in Hs as [? _].
    + apply find_some in Hfind as [Hin Hel].
      split; [apply elem_of_app; left; by apply list_elem_of_In|].
      by apply andb_true_iff in Hel as [? _].
Qed.

(** ** Clip validation *)

(** C9. A clip whose duration, with an absent duration read as 0, is below
    90000 ms fails the acceptance test whatever its other fields are, and no
    scan of a result list retains it as Standalone or Sendung match. *)
Theorem short_clip_rejected teams (match_ : Match.t) video
    (Hshort : default 0 (Video.duration video) < 90000) :
  isAcceptable teams match_ video = false ∧
  ∀ results standaloneMatch sendungMatch,
    scanResults teams match_ results None None = (standaloneMatch, sendungMatch) →
    standaloneMatch ≠ Some video ∧ sendungMatch ≠ Some video.
Proof.
  assert (isAcceptable teams match_ video = false) as Hrej.
  { unfold isAcceptable, isVideoLongEnough, MIN_DURATION_MS. cbv zeta.
    rewrite bool_decide_false by lia. apply andb_false_r. }
  split; [done|].
  intros results sa se Hscan.
  split; intros Hv;
    [ destruct (scanResults_retains _ _ _ _ _ video Hscan (or_introl Hv)) as [_ Hacc]
    | destruct (scanResults_retains _ _ _ _ _ video Hscan (or_intror Hv)) as [_ Hacc] ];
    congruence.
Qed.

Lemma clipDateField_js_or video :
  let videoDateStr :=
    js_or (js_or (Video.date video) (Video.validFrom video)) (Video.publishedDate video) in
  clipDateField video = if truthy videoDateStr then videoDateStr else None.
Proof.
  unfold clipDateField, js_or.
  destruct (Video.date video) as [d|], (Video.validFrom video) as [v|],
    (Video.publishedDate video) as [p|]; simpl;
    repeat (case_match; simpl in *; try congruence); done.
Qed.

Lemma diffDays_window (videoDate matchDateObj : Z) :
  Qle_bool 0 (diffDays videoDate matchDateObj) && Qle_bool (diffDays videoDate matchDateObj) 2
    = true ↔
  0 ≤ setHours0 videoDate - setHours0 matchDateObj ≤ 2 * MS_PER_DAY.
Proof.
  rewrite andb_true_iff, !Qle_bool_iff. unfold diffDays, Qle, MS_PER_DAY. simpl. lia.
Qed.

(** The date check in the code's own units. It passes exactly when the
    clip has a date field (the first present of date, validFrom,
    publishedDate), that field and the fixture date are valid dates, and the
    two local midnights are between 0 and 2 times 86400000 ms apart. Where
    the local midnights of the clip and of the fixture are [k] times
    86400000 ms apart, the check passes exactly for [k] = 0, 1, 2. Whether
    calendar days are that far apart depends on the host's time zone. *)
Theorem date_window video (matchDate : string) :
  (isVideoDateValid video matchDate = true ↔
   ∃ s videoDate matchDateObj,
     clipDateField video = Some s ∧
     Date_parse s = Some videoDate ∧ Date_parse matchDate = Some matchDateObj ∧
     (0 <= diffDays videoDate matchDateObj)%Q ∧ (diffDays videoDate matchDateObj <= 2)%Q) ∧
  (clipDateField video = None → isVideoDateValid video matchDate = false) ∧
  (∀ s videoDate matchDateObj (k : Z),
     clipDateField video = Some s →
     Date_parse s = Some videoDate → Date_parse matchDate = Some matchDateObj →
     setHours0 videoDate = setHours0 matchDateObj + k * MS_PER_DAY →
     isVideoDateValid video matchDate = bool_decide (0 ≤ k ≤ 2)).
Proof.
  pose proof (clipDateField_js_or video) as Hfield. cbv zeta in Hfield.
  assert (∀ s videoDate matchDateObj,
            clipDateField video = Some s →
            Date_parse s = Some videoDate → Date_parse matchDate = Some matchDateObj →
            isVideoDateValid video matchDate =
            Qle_bool 0 (diffDays videoDate matchDateObj) &&
            Qle_bool (diffDays videoDate matchDateObj) 2) as Hcode.
  { intros s tv tm Hs Hv Hm. unfold isVideoDateValid. cbv zeta.
    rewrite Hs in Hfield.
    destruct (truthy (js_or _ _)) eqn:Htr; [|done]. rewrite <- Hfield. simpl.
    rewrite Hv, Hm. unfold diffDays, MS_PER_DAY. simpl. by destruct (_ && _). }
  split; [split|split].
  - intros Hvalid.
    assert (∃ s tv tm, clipDateField video = Some s ∧ Date_parse s = Some tv ∧
                       Date_parse matchDate = Some tm) as (s & tv & tm & Hs & Hv & Hm).
    { clear Hcode. unfold isVideoDateValid in Hvalid. cbv zeta in Hvalid.
      destruct (truthy (js_or _ _)) eqn:Htr; [|done]. simpl in Hvalid.
      destruct (js_or _ _) as [s|] eqn:Hstr; [|done]. simpl in Hvalid.
      destruct (Date_parse s) as [tv|] eqn:Hv; [|done].
      destruct (Date_parse matchDate) as [tm|] eqn:Hm; [|done].
      by exists s, tv, tm. }
    exists s, tv, tm. rewrite (Hcode s tv tm) in Hvalid by done.
    apply andb_true_iff in Hvalid as [H0 H2]. by rewrite <- !Qle_bool_iff.
  - intros (s & tv & tm & Hs & Hv & Hm & H0 & H2).
    rewrite (Hcode s tv tm) by done.
    apply andb_true_iff. by rewrite !Qle_bool_iff.
  - intros Hnone. unfold isVideoDateValid. cbv zeta.
    rewrite Hnone in Hfield. destruct (truthy (js_or _ _)); [|done].
    by rewrite <- Hfield.
  - intros s tv tm k Hs Hv Hm Hk. rewrite (Hcode s tv tm) by done.
    apply eq_true_iff_eq. rewrite diffDays_window, bool_decide_eq_true.
    unfold MS_PER_DAY in *. lia.
Qed.

(** ** Keywords *)

Lemma Set_spread_from (set arr : list string) :
  let result := foldl (λ set x, if arr_includes set x then set else set ++ [x]) set arr in
  (NoDup set → NoDup result) ∧ ∀ x, x ∈ result ↔ x ∈ set ∨ x ∈ arr.
Proof.
  revert set. induction arr as [|a arr IH]; intros set; simpl.
  - split; [done|]. intros x. rewrite elem_of_nil. tauto.
  - destruct (arr_includes set a) eqn:Ha; unfold arr_includes in Ha.
    + apply bool_decide_eq_true in Ha. destruct (IH set) as [Hnd Hin]. split; [done|].
      intros x. rewrite Hin, elem_of_cons. split; [tauto|].
      intros [?|[->|?]]; tauto.
    + apply bool_decide_eq_false in Ha. destruct (IH (set ++ [a])) as [Hnd Hin]. split.
      * intros Hset. apply Hnd, NoDup_app. split; [done|]. split; [|apply NoDup_singleton].
        intros x Hx ->%list_elem_of_singleton. done.
      * intros x. rewrite Hin, elem_of_app, list_elem_of_singleton, elem_of_cons. tauto.
Qed.

Lemma Set_spread_NoDup (arr : list string) : NoDup (Set_spread arr).
Proof. apply (Set_spread_from [] arr), NoDup_nil_2. Qed.

Lemma elem_of_Set_spread (arr : list string) (x : string) : x ∈ Set_spread arr ↔ x ∈ arr.
Proof.
  unfold Set_spread. rewrite (proj2 (Set_spread_from [] arr)), elem_of_nil. tauto.
Qed.

Lemma filter_ext_in {A} (P1 P2 : A → Prop)
    `{!∀ x, Decision (P1 x), !∀ x, Decision (P2 x)} (l : list A) :
  (∀ x, x ∈ l → P1 x ↔ P2 x) → filter P1 l = filter P2 l.
Proof.
  induction l as [|a l IH]; intros Hiff; [done|].
  assert (filter P1 l = filter P2 l) as Hl by (apply IH; intros; apply Hiff; by right).
  destruct (decide (P1 a)) as [Ha|Ha].
  - rewrite !filter_cons_True; [by rewrite Hl | by apply (Hiff a); [left|] | done].
  - rewrite !filter_cons_False; [done | | done]. intros Ha'. apply Ha, (Hiff a); [left|done].
Qed.

Lemma push_all (cs l : list string) : foldl (λ cs dk, cs ++ [dk]) cs l = cs ++ l.
Proof.
  revert cs. induction l as [|x l IH]; intros cs; simpl.
  - by rewrite app_nil_r.
  - by rewrite IH, <- app_assoc.
Qed.

Lemma push_new (cs l : list string) :
  NoDup l →
  foldl (λ cs kw, if negb (arr_includes cs kw) then cs ++ [kw] else cs) cs l =
  cs ++ filter (λ kw, kw ∉ cs) l.
Proof.
  revert cs. induction l as [|x l IH]; intros cs Hnd; simpl.
  - by rewrite filter_nil, app_nil_r.
  - apply NoDup_cons in Hnd as [Hx Hnd].
    destruct (arr_includes cs x) eqn:Hin; unfold arr_includes in Hin; simpl.
    + apply bool_decide_eq_true in Hin. rewrite IH by done. by rewrite filter_cons_False by tauto.
    + apply bool_decide_eq_false in Hin.
      rewrite IH by done. rewrite filter_cons_True by done.
      rewrite <- app_assoc. simpl. do 2 f_equal.
      apply filter_ext_in. intros y Hy. rewrite not_elem_of_app, list_elem_of_singleton.
      split; [tauto|]. intros Hcs. split; [done|]. by intros ->.
Qed.

Lemma head_getAllKeywords teams (team : string) :
  default "undefined" (head (getAllKeywords team teams)) = primaryKeyword teams team.
Proof.
  unfold getAllKeywords, primaryKeyword.
  destruct (TeamsData.teams teams !! team) as [[[[|k ks]|]]|]; simpl; try done.
Qed.

(** The shape of the query list: the two primary keywords joined by a
    space; then the derby keywords, in their order and with whatever
    repetitions they have; then the keywords of home and away, each once and
    in order of first occurrence, without those that already stand in the
    list. It is free of duplicates exactly when the first query followed by
    the derby keywords is. *)
Theorem combinedSearches_spec teams (match_ : Match.t) :
  let home := Match.home match_ in
  let away := Match.away match_ in
  let first := primaryKeyword teams home +:+ " " +:+ primaryKeyword teams away in
  let derby := getDerbyKeywords home away teams in
  let fallback := Set_spread (getAllKeywords home teams ++ getAllKeywords away teams) in
  combinedSearches teams match_ =
    first :: derby ++ filter (λ kw, kw ∉ first :: derby) fallback ∧
  NoDup fallback ∧
  (∀ kw, kw ∈ fallback ↔ kw ∈ getAllKeywords home teams ∨ kw ∈ getAllKeywords away teams) ∧
  (NoDup (combinedSearches teams match_) ↔ NoDup (first :: derby)).
Proof.
  intros home away first derby fallback.
  assert (combinedSearches teams match_ =
          first :: derby ++ filter (λ kw, kw ∉ first :: derby) fallback) as Heq.
  { unfold combinedSearches. cbv zeta. rewrite !head_getAllKeywords.
    rewrite push_all, push_new by apply Set_spread_NoDup. done. }
  split; [done|]. split; [apply Set_spread_NoDup|]. split.
  { intros kw. unfold fallback. by rewrite elem_of_Set_spread, elem_of_app. }
  rewrite Heq. change (first :: derby ++ ?k) with ((first :: derby) ++ k).
  rewrite NoDup_app. split; [tauto|]. intros Hnd. split; [done|]. split.
  - intros x Hx [Hnot _]%list_elem_of_filter. done.
  - apply NoDup_filter, Set_spread_NoDup.
Qed.

(** ** The keyword loop *)

Lemma searchVideos_eq (query : string) st :
  searchVideos query st =
  let st' := mkState (fetch query (world st)).2 (issued st ++ [query]) in
  match (fetch query (world st)).1 with
  | FetchRejects => (Throw, st')
  | Responds false _ => (Return [], st')
  | Responds true BodyNotJSON => (Throw, st')
  | Responds true (BodyJSON searchResultMediaList) =>
      (Return (default [] searchResultMediaList), st')
  end.
Proof.
  unfold searchVideos, await_fetch, mbind, Async_bind.
  destruct (fetch query (world st)) as [[|[] []] w]; reflexivity.
Qed.

Lemma searchVideos_issued (query : string) st c st' :
  searchVideos query st = (c, st') → issued st' = issued st ++ [query].
Proof.
  rewrite searchVideos_eq. cbv zeta.
  destruct (fetch query (world st)).1 as [|[] []]; by intros [= _ <-].
Qed.

Lemma winner_cases teams (match_ : Match.t) results :
  (∃ video videoType, winner teams match_ results = (Some video, Some videoType)) ∨
  winner teams match_ results = (None, None).
Proof.
  unfold winner. destruct (scanResults _ _ _ _ _) as [[sa|] [se|]]; eauto.
Qed.

(** Once [foundVideo] is set the loop breaks at once. *)
Lemma searchLoop_found teams (match_ : Match.t) keywords video videoType st :
  searchLoop teams match_ keywords (Some video) videoType st =
  (Return (Some video, videoType), st).
Proof. by destruct keywords. Qed.

(** One iteration of the loop while nothing is found. *)
Lemma searchLoop_cons teams (match_ : Match.t) keyword keywords st :
  searchLoop teams match_ (keyword :: keywords) None None st =
  match searchVideos keyword st with
  | (Return results, st1) =>
      searchLoop teams match_ keywords
        (winner teams match_ results).1 (winner teams match_ results).2 (paused st1)
  | (Throw, st1) => (Throw, st1)
  end.
Proof.
  simpl. unfold mbind at 1. unfold Async_bind at 1.
  destruct (searchVideos keyword st) as [[results|] st1]; [|done].
  unfold winner. by destruct (scanResults _ _ _ _ _) as [[sa|] [se|]].
Qed.

Lemma searchLoop_app teams (match_ : Match.t) pre post st st1 :
  searchLoop teams match_ pre None None st = (Return (None, None), st1) →
  searchLoop teams match_ (pre ++ post) None None st =
  searchLoop teams match_ post None None st1.
Proof.
  revert st. induction pre as [|q pre IH]; intros st.
  - by intros [= ->].
  - simpl app. rewrite !searchLoop_cons.
    destruct (searchVideos q st) as [[results|] st']; [|done].
    destruct (winner_cases teams match_ results) as [(v & t & ->)| ->]; simpl.
    + by rewrite searchLoop_found.
    + apply IH.
Qed.

(** A loop that ends without a video has sent every query. *)
Lemma searchLoop_none_issued teams (match_ : Match.t) keywords st videoType st' :
  searchLoop teams match_ keywords None None st = (Return (None, videoType), st') →
  videoType = None ∧ issued st' = issued st ++ keywords.
Proof.
  revert st. induction keywords as [|q keywords IH]; intros st.
  - intros [= <- <-]. by rewrite app_nil_r.
  - rewrite searchLoop_cons.
    destruct (searchVideos q st) as [[results|] st1] eqn:Hq; [|done].
    apply searchVideos_issued in Hq.
    destruct (winner_cases teams match_ results) as [(v & t & ->)| ->]; simpl.
    + by rewrite searchLoop_found.
    + intros [-> Hiss]%IH. split; [done|].
      rewrite Hiss. simpl. rewrite Hq. by rewrite <- app_assoc.
Qed.

(** The queries sent by the loop are a prefix of its keyword list. *)
Lemma searchLoop_issued_prefix teams (match_ : Match.t) keywords st c st' :
  searchLoop teams match_ keywords None None st = (c, st') →
  ∃ sent rest, keywords = sent ++ rest ∧ issued st' = issued st ++ sent.
Proof.
  revert st. induction keywords as [|q keywords IH]; intros st.
  - intros [= <- <-]. exists [], []. split; [done | by rewrite app_nil_r].
  - rewrite searchLoop_cons.
    destruct (searchVideos q st) as [[results|] st1] eqn:Hq;
      apply searchVideos_issued in Hq.
    + destruct (winner_cases teams match_ results) as [(v & t & ->)| ->]; simpl.
      * rewrite searchLoop_found. intros [= <- <-].
        exists [q], keywords. by rewrite <- Hq.
      * intros (sent & rest & -> & Hiss)%IH. exists (q :: sent), rest.
        split; [done|]. rewrite Hiss. simpl. rewrite Hq. by rewrite <- app_assoc.
    + intros [= <- <-]. by exists [q], keywords.
Qed.

(** C5. Within one result list, scanned in order, the first acceptable
    'Sport-Clip' clip ends the scan: the clips after it are not looked at,
    and it is the query's result, typed Standalone, also when an acceptable
    'Super League' clip stands before it. Such a clip is kept as a fallback
    only: it is the query's result, typed Sendung, when the list has no
    acceptable 'Sport-Clip' clip at all. *)
Theorem standalone_preferred teams (match_ : Match.t) :
  (∀ pre s post,
     (∀ v, v ∈ pre → standaloneEligible teams match_ v = false) →
     standaloneEligible teams match_ s = true →
     scanResults teams match_ (pre ++ s :: post) None None =
       scanResults teams match_ (pre ++ [s]) None None ∧
     scanResults teams match_ (pre ++ s :: post) None None =
       (Some s, List.find (sendungEligible teams match_) pre) ∧
     winner teams match_ (pre ++ s :: post) = (Some s, Some Standalone) ∧
     ∀ keyword keywords st st1,
       searchVideos keyword st = (Return (pre ++ s :: post), st1) →
       searchLoop teams match_ (keyword :: keywords) None None st =
       (Return (Some s, Some Standalone), paused st1)) ∧
  (∀ results,
     (∀ v, v ∈ results → standaloneEligible teams match_ v = false) →
     scanResults teams match_ results None None =
       (None, List.find (sendungEligible teams match_) results) ∧
     winner teams match_ results =
       match List.find (sendungEligible teams match_) results with
       | Some b => (Some b, Some Sendung)
       | None => (None, None)
       end).
Proof.
  split.
  - intros pre s post Hpre Hs.
    assert (winner teams match_ (pre ++ s :: post) = (Some s, Some Standalone)) as Hwin.
    { unfold winner. by rewrite scanResults_first_standalone. }
    rewrite !scanResults_first_standalone by done. repeat split; [done|].
    intros q kws st st1 Hq. rewrite searchLoop_cons, Hq, Hwin. simpl.
    apply searchLoop_found.
  - intros results Hall. unfold winner.
    rewrite scanResults_no_standalone by done. split; [done|].
    by destruct (List.find _ _).
Qed.

Lemma winner_none teams (match_ : Match.t) results :
  (∀ v, v ∈ results →
     standaloneEligible teams match_ v = false ∧ sendungEligible teams match_ v = false) →
  winner teams match_ results = (None, None).
Proof.
  intros Hall. unfold winner.
  rewrite scanResults_no_standalone by (intros; by apply Hall).
  destruct (List.find _ _) as [b|] eqn:Hfind; [|done].
  apply find_some in Hfind as [Hin%list_elem_of_In Hb].
  destruct (Hall b Hin) as [_ Hno]. congruence.
Qed.

(** ** One fixture, and all of them *)

Lemma searchMatch_eq teams links (foundCount : Z) (c : Candidate.t) st :
  searchMatch teams links foundCount c st =
  match searchLoop teams (Candidate.fixture c)
          (combinedSearches teams (Candidate.fixture c)) None None st with
  | (Return (Some video, videoType), st') =>
      (Return (Links.mk (Links.lastUpdated links)
                 (<[Candidate.matchKey c :=
                      Link.mk (Some (buildVideoUrl (Video.urn video)))
                              (toISOString (Date_now (world st'))) (Video.title video)
                              (Video.urn video) videoType]> (Links.matches links)),
               foundCount + 1), st')
  | (Return (None, _), st') => (Return (links, foundCount), st')
  | (Throw, st') => (Throw, st')
  end.
Proof.
  unfold searchMatch, mbind, Async_bind.
  by destruct (searchLoop _ _ _ _ _ st) as [[[[v|] t]|] st'].
Qed.

Lemma forMatches_app teams (cs1 cs2 : list Candidate.t) links (n : Z) st links1 n1 st1 :
  forMatches teams cs1 links n st = (Return (links1, n1), st1) →
  forMatches teams (cs1 ++ cs2) links n st = forMatches teams cs2 links1 n1 st1.
Proof.
  revert links n st. induction cs1 as [|c cs1 IH]; intros links n st.
  - by intros [= -> -> ->].
  - simpl. unfold mbind, Async_bind.
    destruct (searchMatch teams links n c st) as [[[l k]|] st']; [|done].
    apply IH.
Qed.

(** C6. The queries are tried in order while nothing is found: what the
    loop sends is always an initial part of the query list. The query
    whose result list has a winner, Standalone or Sendung, is the last one
    sent for the fixture. When every query is answered, in the states that
    the loop reaches, and no answer holds an acceptable clip of either show,
    all queries are sent and the result is null; then the
    store is left as it was, and the fixture is a candidate of a later run
    if its key still has no url there and that run is a test run of its
    matchday or falls into its search window. *)
Theorem queries_stop_at_first_winner teams (match_ : Match.t) :
  (∀ keywords st c st',
     searchLoop teams match_ keywords None None st = (c, st') →
     ∃ sent rest, keywords = sent ++ rest ∧ issued st' = issued st ++ sent) ∧
  (∀ pre keyword post st st1 st2 results video videoType,
     searchLoop teams match_ pre None None st = (Return (None, None), st1) →
     searchVideos keyword st1 = (Return results, st2) →
     winner teams match_ results = (Some video, videoType) →
     searchLoop teams match_ (pre ++ keyword :: post) None None st =
       (Return (Some video, videoType), paused st2) ∧
     issued (paused st2) = issued st ++ pre ++ [keyword]) ∧
  (∀ keywords (reached : State → Prop) st,
     reached st →
     (∀ keyword st0, keyword ∈ keywords → reached st0 →
        ∃ results st1, searchVideos keyword st0 = (Return results, st1) ∧
          reached (paused st1) ∧
          ∀ v, v ∈ results → standaloneEligible teams match_ v = false ∧
                             sendungEligible teams match_ v = false) →
     ∃ st', searchLoop teams match_ keywords None None st = (Return (None, None), st') ∧
            issued st' = issued st ++ keywords) ∧
  (∀ links (foundCount : Z) (c : Candidate.t) st st',
     Candidate.fixture c = match_ →
     searchLoop teams match_ (combinedSearches teams match_) None None st
       = (Return (None, None), st') →
     searchMatch teams links foundCount c st = (Return (links, foundCount), st')) ∧
  (∀ now spielplan links testMatchday (c : Candidate.t) now' links' testMatchday',
     c ∈ getMatchesToSearch now spielplan links testMatchday →
     hasUrl links' (Candidate.matchKey c) = false →
     testMatchday' = Some (Candidate.matchday c) ∨
       (testMatchday' = None ∧ searchWindowOpen now' (Candidate.fixture c)) →
     c ∈ getMatchesToSearch now' spielplan links' testMatchday').
Proof.
  split; [|split; [|split; [|split]]].
  - intros keywords st c st'. apply searchLoop_issued_prefix.
  - intros pre q post st st1 st2 results v t Hpre Hq Hwin. split.
    + rewrite (searchLoop_app _ _ _ _ _ _ Hpre), searchLoop_cons, Hq, Hwin. simpl.
      apply searchLoop_found.
    + apply searchLoop_none_issued in Hpre as [_ Hiss]. simpl.
      apply searchVideos_issued in Hq as ->. by rewrite Hiss, <- app_assoc.
  - intros keywords reached. induction keywords as [|q keywords IH]; intros st Hst Hall.
    + exists st. split; [done|]. by rewrite app_nil_r.
    + destruct (Hall q st) as (results & st1 & Hq & Hst1 & Hres); [by left|done|].
      destruct (IH (paused st1)) as (st' & Hloop & Hiss); [done| |].
      { intros kw st0 Hkw. apply Hall. by right. }
      exists st'. rewrite searchLoop_cons, Hq, winner_none by done. simpl.
      split; [done|]. rewrite Hiss. simpl.
      apply searchVideos_issued in Hq as ->. by rewrite <- app_assoc.
  - intros links n c st st' <- Hloop. by rewrite searchMatch_eq, Hloop.
  - intros now spielplan links test c now' links' test'
      (md & m & Hmd & Hm & -> & _ & _)%elem_of_getMatchesToSearch Hfree Hgate.
    simpl in *. apply elem_of_getMatchesToSearch. exists md, m.
    repeat split; [done..|].
    by destruct Hgate as [-> | [-> ?]].
Qed.

(** ** The whole run *)

(** A run whose two configuration files load. *)
Lemma main_loaded files (testMatchday : option Z) st teams spielplan :
  loadJSON (TEAMS_FILE files) = Some teams →
  loadJSON (SPIELPLAN_FILE files) = Some spielplan →
  main files testMatchday st =
  let now := Date_now (world st) in
  let links := default (freshLinks now) (loadJSON (LINKS_FILE files)) in
  let matchesToSearch := getMatchesToSearch now spielplan links testMatchday in
  if bool_decide (length matchesToSearch = 0%nat) then (Exit0, LINKS_FILE files, st)
  else
    match forMatches teams matchesToSearch links 0 st with
    | (Return (links', foundCount), st') =>
        (Exit0,
         if bool_decide (foundCount > 0)
         then Parsed (Links.mk (toISOString (Date_now (world st'))) (Links.matches links'))
         else LINKS_FILE files,
         st')
    | (Throw, st') => (Exit1, LINKS_FILE files, st')
    end.
Proof.
  intros Hteams Hplan. unfold main, crawl. cbv zeta. rewrite Hteams, Hplan.
  unfold mbind, Async_bind, new_Date, freshLinks. simpl.
  case_bool_decide; [done|].
  destruct (forMatches _ _ _ _ st) as [[[links' n]|] st']; [|done].
  by case_bool_decide.
Qed.

(** A run that cannot load teams.json or spielplan.json. *)
Lemma main_not_loaded files (testMatchday : option Z) st :
  loadJSON (TEAMS_FILE files) = None ∨ loadJSON (SPIELPLAN_FILE files) = None →
  main files testMatchday st = (Exit1, LINKS_FILE files, st).
Proof.
  unfold main, crawl. cbv zeta. intros [-> | ->]; [done|].
  by destruct (loadJSON (TEAMS_FILE files)).
Qed.

(** C2, as amended. A non-success response gives the empty result list for
    that query and the loop goes on with the next query. A transport failure
    is not caught: [searchVideos] throws, the keyword loop throws at that
    query, the loop over the fixtures throws, and the run ends with exit
    status 1 and links.json as it was. *)
Theorem search_failures teams :
  (∀ (query : string) st body w,
     fetch query (world st) = (Responds false body, w) →
     searchVideos query st = (Return [], mkState w (issued st ++ [query]))) ∧
  (∀ (match_ : Match.t) pre query post st st1 body w,
     searchLoop teams match_ pre None None st = (Return (None, None), st1) →
     fetch query (world st1) = (Responds false body, w) →
     searchLoop teams match_ (pre ++ query :: post) None None st =
     searchLoop teams match_ post None None (paused (mkState w (issued st1 ++ [query])))) ∧
  (∀ (query : string) st w,
     fetch query (world st) = (FetchRejects, w) →
     searchVideos query st = (Throw, mkState w (issued st ++ [query]))) ∧
  (∀ (match_ : Match.t) pre query post st st1 w,
     searchLoop teams match_ pre None None st = (Return (None, None), st1) →
     fetch query (world st1) = (FetchRejects, w) →
     searchLoop teams match_ (pre ++ query :: post) None None st =
     (Throw, mkState w (issued st1 ++ [query]))) ∧
  (∀ (before : list Candidate.t) c after links (n : Z) st links1 n1 st1 st2,
     forMatches teams before links n st = (Return (links1, n1), st1) →
     searchLoop teams (Candidate.fixture c)
       (combinedSearches teams (Candidate.fixture c)) None None st1 = (Throw, st2) →
     forMatches teams (before ++ c :: after) links n st = (Throw, st2)) ∧
  (∀ files (testMatchday : option Z) st spielplan st',
     loadJSON (TEAMS_FILE files) = Some teams →
     loadJSON (SPIELPLAN_FILE files) = Some spielplan →
     let now := Date_now (world st) in
     let links := default (freshLinks now) (loadJSON (LINKS_FILE files)) in
     forMatches teams (getMatchesToSearch now spielplan links testMatchday) links 0 st
       = (Throw, st') →
     main files testMatchday st = (Exit1, LINKS_FILE files, st')).
Proof.
  assert (∀ (query : string) st body w,
     fetch query (world st) = (Responds false body, w) →
     searchVideos query st = (Return [], mkState w (issued st ++ [query]))) as Hnotok.
  { intros q st body w Hf. by rewrite searchVideos_eq, Hf. }
  assert (∀ (query : string) st w,
     fetch query (world st) = (FetchRejects, w) →
     searchVideos query st = (Throw, mkState w (issued st ++ [query]))) as Hrej.
  { intros q st w Hf. by rewrite searchVideos_eq, Hf. }
  split; [done|]. split; [|split; [done|]; split; [|split]].
  - intros m pre q post st st1 body w Hpre Hf.
    rewrite (searchLoop_app _ _ _ _ _ _ Hpre), searchLoop_cons.
    by rewrite (Hnotok _ _ _ _ Hf).
  - intros m pre q post st st1 w Hpre Hf.
    rewrite (searchLoop_app _ _ _ _ _ _ Hpre), searchLoop_cons.
    by rewrite (Hrej _ _ _ Hf).
  - intros before c after links n st links1 n1 st1 st2 Hbefore Hthrow.
    rewrite (forMatches_app _ _ _ _ _ _ _ _ _ Hbefore). simpl.
    unfold mbind, Async_bind. by rewrite searchMatch_eq, Hthrow.
  - intros files test st spielplan st' Hteams Hplan now links Hthrow.
    rewrite (main_loaded _ _ _ _ _ Hteams Hplan). cbv zeta.
    fold now. fold links. rewrite Hthrow.
    case_bool_decide as Hempty; [|done].
    apply length_zero_iff_nil in Hempty. by rewrite Hempty in Hthrow.
Qed.

(** C10, as amended. An unreadable or unparseable links.json loads as
    null, like an absent one, and the run is that of an absent file except
    for the file it leaves behind. The candidate set is computed from an
    empty store: every fixture of the schedule that the mode admits (test
    matchday, or open search window) is a candidate, resolved before or not.
    links.json is overwritten only when the run found at least one video;
    otherwise the corrupt file stays. *)
Theorem corrupt_links_file files (testMatchday : option Z) st
    (Hcorrupt : LINKS_FILE files = Unreadable ∨ LINKS_FILE files = Unparseable) :
  loadJSON (LINKS_FILE files) = None ∧
  loadJSON (LINKS_FILE files) = loadJSON (@Missing Links.t) ∧
  (let absent := main (with_links_file files Missing) testMatchday st in
   main files testMatchday st =
   (absent.1.1,
    match absent.1.2 with Parsed links' => Parsed links' | _ => LINKS_FILE files end,
    absent.2)) ∧
  ∀ teams spielplan,
    loadJSON (TEAMS_FILE files) = Some teams →
    loadJSON (SPIELPLAN_FILE files) = Some spielplan →
    let now := Date_now (world st) in
    let candidates := getMatchesToSearch now spielplan (freshLinks now) testMatchday in
    (∀ c : Candidate.t, c ∈ candidates ↔
       ∃ matchday (match_ : Match.t),
         matchday ∈ Spielplan.matchdays spielplan ∧
         match_ ∈ Matchday.matches matchday ∧
         c = Candidate.mk (Matchday.matchday matchday) match_
               (matchKey_of (Matchday.matchday matchday) match_) ∧
         match testMatchday with
         | Some d => Matchday.matchday matchday = d
         | None => searchWindowOpen now match_
         end) ∧
    (candidates = [] → main files testMatchday st = (Exit0, LINKS_FILE files, st)) ∧
    (∀ links' (foundCount : Z) st',
       candidates ≠ [] →
       forMatches teams candidates (freshLinks now) 0 st = (Return (links', foundCount), st') →
       main files testMatchday st =
       (Exit0,
        if bool_decide (foundCount > 0)
        then Parsed (Links.mk (toISOString (Date_now (world st'))) (Links.matches links'))
        else LINKS_FILE files,
        st')).
Proof.
  assert (loadJSON (LINKS_FILE files) = None) as Hnull by (by destruct Hcorrupt as [-> | ->]).
  split; [done|]. split; [done|]. split.
  - cbv zeta.
    destruct (loadJSON (TEAMS_FILE files)) as [teams|] eqn:Hteams;
      [destruct (loadJSON (SPIELPLAN_FILE files)) as [spielplan|] eqn:Hplan|].
    + rewrite (main_loaded files _ _ _ _ Hteams Hplan).
      rewrite (main_loaded (with_links_file files Missing) _ _ teams spielplan) by done.
      cbv zeta. rewrite Hnull. change (loadJSON (LINKS_FILE (with_links_file files Missing)))
        with (@None Links.t). simpl.
      case_bool_decide; simpl; [done|].
      destruct (forMatches _ _ _ _ st) as [[[links' n]|] st']; simpl; [|done].
      by case_bool_decide.
    + rewrite !main_not_loaded; [done|by right..].
    + rewrite !main_not_loaded; [done|by left..].
  - intros teams spielplan Hteams Hplan now candidates. split; [|split].
    + intros c. unfold candidates. rewrite elem_of_getMatchesToSearch.
      split.
      * intros (md & m & ? & ? & ? & _ & ?). by exists md, m.
      * intros (md & m & ? & ? & ? & ?). exists md, m. by repeat split.
    + intros Hempty. rewrite (main_loaded _ _ _ _ _ Hteams Hplan). cbv zeta.
      rewrite Hnull. simpl. fold now. fold candidates. by rewrite Hempty.
    + intros links' n st' Hne Hrun. rewrite (main_loaded _ _ _ _ _ Hteams Hplan). cbv zeta.
      rewrite Hnull. simpl. fold now. fold candidates. rewrite Hrun.
      rewrite bool_decide_false; [done|]. by intros ?%length_zero_iff_nil.
Qed.

End Properties.

(** * Further properties of the code *)

Section Strings.

Lemma append_cons (c : ascii) (s t : string) : String c s +:+ t = String c (s +:+ t).
Proof. reflexivity. Qed.

Lemma append_empty_l (s : string) : "" +:+ s = s.
Proof. reflexivity. Qed.

Lemma append_assoc (a b c : string) : (a +:+ b) +:+ c = a +:+ b +:+ c.
Proof.
  induction a as [|x a IH]; [done|]. by rewrite !append_cons, IH.
Qed.

Lemma prefix_append (p s : string) : String.prefix p s = true ↔ ∃ b, s = p +:+ b.
Proof.
  revert s. induction p as [|c p IH]; intros s.
  - split; [|by destruct s]. intros _. by exists s.
  - destruct s as [|d s]; simpl.
    + split; [done|]. by intros (b & ?).
    + destruct (Ascii.ascii_dec c d) as [<-|Hne].
      * rewrite IH. split; intros (b & Hb); exists b.
        -- by rewrite append_cons, <- Hb.
        -- rewrite append_cons in Hb. by injection Hb.
      * split; [done|]. intros (b & Hb). rewrite append_cons in Hb.
        injection Hb as -> _. done.
Qed.

(** [includes] is the substring test. *)
Lemma includes_substring (s sub : string) :
  includes s sub = true ↔ ∃ a b, s = a +:+ sub +:+ b.
Proof.
  induction s as [|c s IH].
  - change (includes "" sub) with (String.prefix sub "" || false).
    rewrite orb_false_r, prefix_append. split.
    + intros (b & ->). by exists "", b.
    + intros ([|x a] & b & Heq); [by exists b|].
      by rewrite append_cons in Heq.
  - change (includes (String c s) sub)
      with (String.prefix sub (String c s) || includes s sub).
    rewrite orb_true_iff, prefix_append, IH. split.
    + intros [(b & ->)|(a & b & ->)]; [by exists "", b|].
      by exists (String c a), b.
    + intros ([|x a] & b & Heq).
      * left. by exists b.
      * right. rewrite append_cons in Heq. injection Heq as -> ->. by exists a, b.
Qed.

Lemma includes_empty (s : string) : includes s "" = true.
Proof. apply includes_substring. by exists "", s. Qed.

Lemma includes_cons_underscore (c : ascii) (s : string) :
  includes (String c s) "_" = false ↔ c ≠ "_"%char ∧ includes s "_" = false.
Proof.
  change (includes (String c s) "_")
    with (String.prefix "_" (String c s) || includes s "_").
  rewrite orb_false_iff.
  assert (String.prefix "_" (String c s) = false ↔ c ≠ "_"%char) as ->; [|done].
  split.
  - intros Hp ->.
    assert (String.prefix "_" (String "_" s) = true) as Hp'
      by (apply prefix_append; by exists s).
    congruence.
  - intros Hne. destruct (String.prefix "_" (String c s)) eqn:Hp; [|done].
    apply prefix_append in Hp as (b & Hb).
    change ("_" +:+ b) with (String "_" b) in Hb. injection Hb as -> _. done.
Qed.

Lemma pretty_N_go_no_underscore (x : N) (s : string) :
  includes s "_" = false → includes (pretty_N_go x s) "_" = false.
Proof.
  revert s. induction (N.lt_wf_0 x) as [x _ IH]; intros s Hs.
  destruct (decide (0 < x)%N) as [Hpos|Hzero].
  - rewrite pretty_N_go_step by done. apply IH.
    + apply N.div_lt; lia.
    + apply includes_cons_underscore. split; [|done].
      unfold pretty_N_char. by repeat case_match.
  - assert (x = 0%N) as -> by lia. by rewrite pretty_N_go_0.
Qed.

Lemma pretty_Z_no_underscore (z : Z) : includes (pretty z) "_" = false.
Proof.
  assert (∀ p : positive, includes (pretty p) "_" = false) as Hpos.
  { intros p. unfold pretty, pretty_positive, pretty, pretty_N.
    case_decide; [done|]. by apply pretty_N_go_no_underscore. }
  destruct z as [|p|p]; [done|apply Hpos|].
  change (pretty (Z.neg p)) with (String "-" (pretty p)).
  apply includes_cons_underscore. split; [done | apply Hpos].
Qed.

(** Two texts without underscore that are followed by one are equal when
    the whole strings are. *)
Lemma underscore_split (a b r1 r2 : string) :
  includes a "_" = false → includes b "_" = false →
  a +:+ String "_" r1 = b +:+ String "_" r2 → a = b ∧ r1 = r2.
Proof.
  revert b. induction a as [|c a IH]; intros [|d b] Ha Hb Heq.
  - rewrite !append_empty_l in Heq. by injection Heq.
  - rewrite append_empty_l, append_cons in Heq. injection Heq as <- _.
    by apply includes_cons_underscore in Hb as [? _].
  - rewrite append_empty_l, append_cons in Heq. injection Heq as -> _.
    by apply includes_cons_underscore in Ha as [? _].
  - rewrite !append_cons in Heq. injection Heq as -> Heq.
    apply includes_cons_underscore in Ha as [_ Ha].
    apply includes_cons_underscore in Hb as [_ Hb].
    destruct (IH b Ha Hb Heq) as [-> ->]. done.
Qed.

End Strings.

Section MoreProperties.
Context `{Host}.

Implicit Types (teams : TeamsData.t) (video : Video.t).
Implicit Types (links : Links.t) (spielplan : Spielplan.t) (st : State).

(** ** Text checks *)

(** X1. [findTeamInText] answers true exactly when the lower-cased text
    contains, as a contiguous substring, the lower-cased team name or one of
    the lower-cased keywords configured for the team. *)
Theorem findTeamInText_iff (text teamName : string) teams :
  findTeamInText text teamName teams = true ↔
  ∃ needle,
    (needle = teamName ∨
     ∃ teamInfo keywords,
       TeamsData.teams teams !! teamName = Some teamInfo ∧
       Team.keywords teamInfo = Some keywords ∧ needle ∈ keywords) ∧
    ∃ a b, toLowerCase text = a +:+ toLowerCase needle +:+ b.
Proof.
  unfold findTeamInText. cbv zeta. split.
  - destruct (TeamsData.teams teams !! teamName) as [[[keywords|]]|] eqn:Hteam; simpl.
    1: destruct (existsb _ keywords) eqn:Hkw.
    1: { intros _. apply existsb_exists in Hkw as (kw & Hin%list_elem_of_In & Hinc).
         exists kw. split; [right; by exists (Team.mk (Some keywords)), keywords|].
         by apply includes_substring. }
    all: destruct (includes _ (toLowerCase teamName)) eqn:Hname; [|done].
    all: intros _; exists teamName; split; [by left | by apply includes_substring].
  - intros (needle & [-> | (info & keywords & -> & Hkws & Hin)] & Hsub%includes_substring).
    + rewrite Hsub. by destruct (match _ with Some _ => _ | None => _ end).
    + rewrite Hkws.
      assert (existsb (λ keyword, includes (toLowerCase text) (toLowerCase keyword)) keywords
              = true) as ->; [|done].
      apply existsb_exists. exists needle. split; [by apply list_elem_of_In | done].
Qed.

(** X2. An empty keyword in a team's list makes every text mention the
    team, on a host whose [toLowerCase] keeps the empty string empty. *)
Theorem empty_keyword_matches_everything (teamName : string) teams teamInfo keywords
    (Hlower : toLowerCase "" = "")
    (Hteam : TeamsData.teams teams !! teamName = Some teamInfo)
    (Hkeywords : Team.keywords teamInfo = Some keywords)
    (Hempty : "" ∈ keywords) :
  ∀ text, findTeamInText text teamName teams = true.
Proof.
  intros text. unfold findTeamInText. cbv zeta. rewrite Hteam, Hkeywords.
  assert (existsb (λ keyword, includes (toLowerCase text) (toLowerCase keyword)) keywords
          = true) as ->; [|done].
  apply existsb_exists. exists "". split; [by apply list_elem_of_In|].
  rewrite Hlower. apply includes_empty.
Qed.

(** X3. [isNotBlacklisted] answers false exactly when the lower-cased title
    (the empty string for a clip without title) contains one of the words of
    [TITLE_BLACKLIST] as a contiguous substring. *)
Theorem isNotBlacklisted_iff video :
  isNotBlacklisted video = false ↔
  ∃ word, word ∈ TITLE_BLACKLIST ∧
    ∃ a b, toLowerCase (or_empty (Video.title video)) = a +:+ word +:+ b.
Proof.
  unfold isNotBlacklisted. cbv zeta. rewrite negb_false_iff, existsb_exists.
  split.
  - intros (word & Hin%list_elem_of_In & Hinc%includes_substring). by exists word.
  - intros (word & Hin & Hsub). exists word.
    split; [by apply list_elem_of_In | by apply includes_substring].
Qed.

(** ** The date check *)

(** X4. A present [date] field shadows the other two date fields: the
    check gives the same answer whatever [validFrom] and [publishedDate]
    hold, and it fails when [date] is not a valid date, even if one of the
    others is. *)
Theorem present_date_shadows video (matchDate d : string)
    (Hdate : Video.date video = Some d)
    (Hnonempty : d ≠ "") :
  (∀ validFrom publishedDate,
     isVideoDateValid
       (Video.mk (Video.title video) (Video.description video) (Video.show_title video)
                 (Some d) validFrom publishedDate (Video.duration video) (Video.urn video))
       matchDate
     = isVideoDateValid video matchDate) ∧
  (Date_parse d = None → isVideoDateValid video matchDate = false).
Proof.
  assert (truthy (Some d) = true) as Htr by (apply truthy_Some; by exists d).
  assert (∀ v p, js_or (js_or (Some d) v) p = Some d) as Hor.
  { intros v p. unfold js_or at 2. rewrite Htr. unfold js_or. by rewrite Htr. }
  split.
  - intros validFrom publishedDate. unfold isVideoDateValid. cbv zeta. simpl.
    by rewrite Hdate, !Hor.
  - intros Hinvalid. unfold isVideoDateValid. cbv zeta.
    rewrite Hdate, Hor, Htr. simpl. by rewrite Hinvalid.
Qed.

(** ** Keys and urls *)

(** X5. The url built from a urn is never empty, and it determines the
    urn: two urns give the same url only if they are equal, an absent urn
    counting as the text 'undefined'. *)
Theorem buildVideoUrl_inj :
  (∀ urn, truthy (Some (buildVideoUrl urn)) = true) ∧
  (∀ urn1 urn2 : option string,
     buildVideoUrl urn1 = buildVideoUrl urn2 ↔
     default "undefined" urn1 = default "undefined" urn2).
Proof.
  split.
  - intros urn. apply truthy_Some. eexists. split; [done|]. by unfold buildVideoUrl.
  - intros urn1 urn2. unfold buildVideoUrl. split.
    + apply String.app_inj.
    + by intros ->.
Qed.

(** X6. The key of a fixture determines its matchday number: two keys
    are equal exactly when the matchday numbers are equal and the texts
    'home - away' are. Fixtures of different matchdays never share a key. *)
Theorem matchKey_of_inj (d1 d2 : Z) (m1 m2 : Match.t) :
  matchKey_of d1 m1 = matchKey_of d2 m2 ↔
  d1 = d2 ∧
  Match.home m1 +:+ " - " +:+ Match.away m1 = Match.home m2 +:+ " - " +:+ Match.away m2.
Proof.
  unfold matchKey_of. split.
  - intros Heq.
    change ("_" +:+ ?r) with (String "_" r) in Heq.
    apply underscore_split in Heq as [Hd Hrest];
      [|apply pretty_Z_no_underscore..].
    split; [by apply (inj pretty) | done].
  - intros [-> Hrest]. by rewrite Hrest.
Qed.

(** ** Scanning and searching *)

(** X7. What a result list contributes is either nothing, and then no clip
    of the list is an acceptable 'Sport-Clip' or 'Super League' clip; or an
    acceptable clip of the list typed Standalone, whose show is 'Sport-Clip';
    or an acceptable clip typed Sendung, whose show title contains
    'Super League', and then the list has no acceptable 'Sport-Clip' clip.
    A clip of any other show is never chosen. *)
Theorem winner_sound teams (match_ : Match.t) (results : list Video.t) :
  match winner teams match_ results with
  | (Some v, Some Standalone) =>
      v ∈ results ∧ isAcceptable teams match_ v = true ∧
      or_empty (Video.show_title v) = "Sport-Clip"
  | (Some v, Some Sendung) =>
      v ∈ results ∧ isAcceptable teams match_ v = true ∧
      includes (or_empty (Video.show_title v)) "Super League" = true ∧
      ∀ w, w ∈ results → standaloneEligible teams match_ w = false
  | (None, None) =>
      ∀ w, w ∈ results →
        standaloneEligible teams match_ w = false ∧ sendungEligible teams match_ w = false
  | _ => False
  end.
Proof.
  unfold winner.
  destruct (split_at_first (standaloneEligible teams match_) results)
    as [Hall | (pre & s & post & -> & Hpre & Hs)].
  - rewrite scanResults_no_standalone by done.
    destruct (List.find _ results) as [b|] eqn:Hfind.
    + apply find_some in Hfind as [Hin%list_elem_of_In [Hacc Hshow]%andb_true_iff].
      done.
    + intros w Hw. split; [by apply Hall|].
      by apply (find_none _ _ Hfind), list_elem_of_In.
  - rewrite scanResults_first_standalone by done.
    apply andb_true_iff in Hs as [Hacc Hshow%String.eqb_eq].
    split; [apply elem_of_app; right; left | done].
Qed.

Lemma scanResults_ineligible teams (match_ : Match.t) video results
    (sendungMatch : option Video.t) :
  isAcceptable teams match_ video = false →
  scanResults teams match_ (video :: results) None sendungMatch =
  scanResults teams match_ results None sendungMatch.
Proof.
  intros Hacc. rewrite scanResults_skip by (unfold standaloneEligible; by rewrite Hacc).
  unfold sendungEligible. rewrite Hacc. by destruct sendungMatch.
Qed.

Lemma scanResults_keep teams (match_ : Match.t) (keep : Video.t → bool) results
    (sendungMatch : option Video.t) :
  (∀ v, v ∈ results → isAcceptable teams match_ v = true → keep v = true) →
  scanResults teams match_ (List.filter keep results) None sendungMatch =
  scanResults teams match_ results None sendungMatch.
Proof.
  revert sendungMatch. induction results as [|v results IH]; intros se Hkeep; [done|].
  assert (∀ se', scanResults teams match_ (List.filter keep results) None se' =
                 scanResults teams match_ results None se') as IH'.
  { intros se'. apply IH. intros w Hw. apply Hkeep. by right. }
  simpl List.filter. destruct (keep v) eqn:Hv.
  - destruct (standaloneEligible teams match_ v) eqn:Hs.
    + by rewrite !scanResults_break.
    + by rewrite !scanResults_skip, IH'.
  - assert (isAcceptable teams match_ v = false) as Hacc.
    { destruct (isAcceptable teams match_ v) eqn:Hacc; [|done].
      rewrite Hkeep in Hv; [done|by left|done]. }
    by rewrite scanResults_ineligible, IH'.
Qed.

(** X8. Clips that fail the acceptance test play no part: dropping from a
    result list any clips, as long as every acceptable one is kept, does not
    change what the list contributes. *)
Theorem winner_ignores_unacceptable teams (match_ : Match.t) (keep : Video.t → bool)
    (results : list Video.t)
    (Hkeep : ∀ v, v ∈ results → isAcceptable teams match_ v = true → keep v = true) :
  winner teams match_ (List.filter keep results) = winner teams match_ results.
Proof. unfold winner. by rewrite scanResults_keep. Qed.

Lemma searchLoop_never teams (match_ : Match.t) keywords st r st' :
  (∀ results, winner teams match_ results = (None, None)) →
  searchLoop teams match_ keywords None None st = (Return r, st') →
  r = (None, None) ∧ issued st' = issued st ++ keywords.
Proof.
  intros Hnone. revert st. induction keywords as [|q keywords IH]; intros st.
  - intros [= <- <-]. by rewrite app_nil_r.
  - rewrite searchLoop_cons.
    destruct (searchVideos q st) as [[results|] st1] eqn:Hq; [|done].
    rewrite Hnone. simpl. intros [-> Hiss]%IH. split; [done|].
    rewrite Hiss. simpl. apply searchVideos_issued in Hq as ->. by rewrite <- app_assoc.
Qed.

(** X9. A fixture whose date is not a valid date can never be resolved:
    no clip is acceptable for it, every query of its list is sent and
    answered in vain, and the store is left as it was. *)
Theorem unparsable_fixture_date_never_resolved teams (match_ : Match.t)
    (Hdate : Date_parse (Match.date match_) = None) :
  (∀ video, isAcceptable teams match_ video = false) ∧
  (∀ keywords st r st',
     searchLoop teams match_ keywords None None st = (Return r, st') →
     r = (None, None) ∧ issued st' = issued st ++ keywords) ∧
  (∀ links (n : Z) (c : Candidate.t) st links' n' st',
     Candidate.fixture c = match_ →
     searchMatch teams links n c st = (Return (links', n'), st') →
     links' = links ∧ n' = n).
Proof.
  assert (∀ video, isAcceptable teams match_ video = false) as Hacc.
  { intros video. unfold isAcceptable. cbv zeta.
    assert (isVideoDateValid video (Match.date match_) = false) as ->.
    { unfold isVideoDateValid. cbv zeta. rewrite Hdate.
      destruct (negb _); [done|]. by destruct (_ ≫= Date_parse). }
    by rewrite andb_false_r. }
  assert (∀ results, winner teams match_ results = (None, None)) as Hnone.
  { intros results. apply winner_none. intros v _.
    unfold standaloneEligible, sendungEligible. by rewrite Hacc. }
  split; [done|]. split.
  - intros keywords st r st'. by apply searchLoop_never.
  - intros links n c st links' n' st' <-. rewrite searchMatch_eq.
    destruct (searchLoop _ _ _ _ _ st) as [[r|] st1] eqn:Hloop; [|done].
    apply searchLoop_never in Hloop as [-> _]; [|done].
    by intros [= <- <- <-].
Qed.

(** What [searchLoop] returns came out of one of the result lists. *)
Lemma searchLoop_result teams (match_ : Match.t) keywords st foundVideo videoType st' :
  searchLoop teams match_ keywords None None st = (Return (foundVideo, videoType), st') →
  (foundVideo = None ∧ videoType = None) ∨
  ∃ results video type,
    foundVideo = Some video ∧ videoType = Some type ∧
    winner teams match_ results = (Some video, Some type).
Proof.
  revert st. induction keywords as [|q keywords IH]; intros st.
  - intros [= <- <- <-]. by left.
  - rewrite searchLoop_cons.
    destruct (searchVideos q st) as [[results|] st1]; [|done].
    destruct (winner_cases teams match_ results) as [(v & t & Hwin)| Hwin];
      rewrite Hwin; simpl.
    + rewrite searchLoop_found. intros [= <- <- <-]. right. by exists results, v, t.
    + apply IH.
Qed.

(** The two ways in which the search of one fixture returns. *)
Lemma searchMatch_cases teams links (n : Z) (c : Candidate.t) st links' n' st' :
  searchMatch teams links n c st = (Return (links', n'), st') →
  (links' = links ∧ n' = n) ∨
  ∃ video type,
    n' = n + 1 ∧
    links' = Links.mk (Links.lastUpdated links)
               (<[Candidate.matchKey c :=
                    Link.mk (Some (buildVideoUrl (Video.urn video)))
                            (toISOString (Date_now (world st'))) (Video.title video)
                            (Video.urn video) (Some type)]> (Links.matches links)) ∧
    isAcceptable teams (Candidate.fixture c) video = true.
Proof.
  rewrite searchMatch_eq.
  destruct (searchLoop _ _ _ _ _ st) as [[[fv vt]|] st1] eqn:Hloop; [|done].
  apply searchLoop_result in Hloop as [[-> ->] | (results & v & t & -> & -> & Hwin)].
  - intros [= <- <- <-]. by left.
  - intros [= <- <- <-]. right. exists v, t. split; [done|]. split; [done|].
    unfold winner in Hwin.
    destruct (scanResults _ _ results None None) as [sa se] eqn:Hscan.
    apply (scanResults_retains _ _ _ _ _ v Hscan).
    destruct sa as [s|]; [injection Hwin as ->; by left|].
    destruct se as [b|]; [injection Hwin as ->; by right | done].
Qed.

(** X10. The search of one fixture either leaves the store and the count
    as they are, or it stores exactly one link, under the fixture's key, and
    adds one to the count. The link stored has a non-empty url built from the
    clip's urn, the clip's title and urn, a type, and the clip passed the
    acceptance test for this fixture. No other entry and not [lastUpdated]
    is touched. *)
Theorem searchMatch_writes teams links (n : Z) (c : Candidate.t) st :
  match searchMatch teams links n c st with
  | (Return (links', n'), st') =>
      (links' = links ∧ n' = n) ∨
      ∃ video type,
        n' = n + 1 ∧ isAcceptable teams (Candidate.fixture c) video = true ∧
        Links.lastUpdated links' = Links.lastUpdated links ∧
        Links.matches links' !! Candidate.matchKey c =
          Some (Link.mk (Some (buildVideoUrl (Video.urn video)))
                        (toISOString (Date_now (world st'))) (Video.title video)
                        (Video.urn video) (Some type)) ∧
        hasUrl links' (Candidate.matchKey c) = true ∧
        ∀ k, k ≠ Candidate.matchKey c →
          Links.matches links' !! k = Links.matches links !! k
  | (Throw, _) => True
  end.
Proof.
  destruct (searchMatch teams links n c st) as [[[links' n']|] st'] eqn:Hsearch; [|done].
  apply searchMatch_cases in Hsearch as [? | (v & t & -> & -> & Hacc)]; [by left|].
  right. exists v, t. simpl. split; [done|]. split; [done|]. split; [done|].
  split; [apply lookup_insert_eq|]. split.
  - unfold hasUrl. simpl. by rewrite lookup_insert_eq.
  - intros k Hk. by apply lookup_insert_ne.
Qed.

(** ** The loop over the fixtures *)

(** Induction over the fixtures that a returning loop has searched. *)
Lemma forMatches_steps teams (R : list Candidate.t → Links.t → Z → Links.t → Z → Prop) :
  (∀ links n, R [] links n links n) →
  (∀ c cs links n links1 n1 links2 n2 st st1,
     searchMatch teams links n c st = (Return (links1, n1), st1) →
     R cs links1 n1 links2 n2 → R (c :: cs) links n links2 n2) →
  ∀ cands links n st links' n' st',
    forMatches teams cands links n st = (Return (links', n'), st') →
    R cands links n links' n'.
Proof.
  intros Hnil Hcons cands. induction cands as [|c cs IH]; intros links n st links' n' st'.
  - intros [= <- <- <-]. apply Hnil.
  - simpl. unfold mbind, Async_bind.
    destruct (searchMatch teams links n c st) as [[[links1 n1]|] st1] eqn:Hc; [|done].
    intros Hrest. eapply Hcons; [exact Hc|]. by eapply IH.
Qed.

Lemma searchMatch_hasUrl teams links (n : Z) (c : Candidate.t) st links' n' st' k :
  searchMatch teams links n c st = (Return (links', n'), st') →
  hasUrl links k = true → hasUrl links' k = true.
Proof.
  intros [[-> _] | (v & t & _ & -> & _)]%searchMatch_cases Hk; [done|].
  unfold hasUrl. simpl. destruct (decide (k = Candidate.matchKey c)) as [->|Hne].
  - by rewrite lookup_insert_eq.
  - by rewrite lookup_insert_ne.
Qed.

Lemma forMatches_hasUrl teams cands links (n : Z) st links' n' st' k :
  forMatches teams cands links n st = (Return (links', n'), st') →
  hasUrl links k = true → hasUrl links' k = true.
Proof.
  apply (forMatches_steps teams (λ _ l _ l' _, hasUrl l k = true → hasUrl l' k = true)).
  - done.
  - intros c cs l m l1 m1 l2 m2 s s1 Hc IH Hk. apply IH.
    by eapply searchMatch_hasUrl.
Qed.

Lemma forMatches_untouched teams cands links (n : Z) st links' n' st' :
  forMatches teams cands links n st = (Return (links', n'), st') →
  Links.lastUpdated links' = Links.lastUpdated links ∧
  ∀ k, k ∉ Candidate.matchKey <$> cands →
    Links.matches links' !! k = Links.matches links !! k.
Proof.
  apply (forMatches_steps teams (λ cs l _ l' _,
    Links.lastUpdated l' = Links.lastUpdated l ∧
    ∀ k, k ∉ Candidate.matchKey <$> cs → Links.matches l' !! k = Links.matches l !! k)).
  - done.
  - intros c cs l m l1 m1 l2 m2 s s1 Hc [Hlast Hrest].
    apply searchMatch_cases in Hc as [[-> _] | (v & t & _ & -> & _)].
    + split; [done|]. intros k Hk. apply Hrest.
      change (k ∉ Candidate.matchKey c :: (Candidate.matchKey <$> cs)) in Hk.
      by apply not_elem_of_cons in Hk as [_ ?].
    + simpl in *. split; [done|]. intros k Hk.
      change (k ∉ Candidate.matchKey c :: (Candidate.matchKey <$> cs)) in Hk.
      apply not_elem_of_cons in Hk as [Hne Hk].
      rewrite Hrest by done. by apply lookup_insert_ne.
Qed.

(** X11. A loop over the fixtures that returns has touched nothing but
    the entries of the fixtures it searched: every other key of the store
    holds what it held, and [lastUpdated] is unchanged. *)
Theorem forMatches_frame teams (cands : list Candidate.t) links (n : Z) st :
  match forMatches teams cands links n st with
  | (Return (links', _), _) =>
      Links.lastUpdated links' = Links.lastUpdated links ∧
      ∀ k, k ∉ Candidate.matchKey <$> cands →
        Links.matches links' !! k = Links.matches links !! k
  | (Throw, _) => True
  end.
Proof.
  destruct (forMatches teams cands links n st) as [[[links' n']|] st'] eqn:Hrun; [|done].
  by eapply forMatches_untouched.
Qed.

Lemma forMatches_counting teams (cands : list Candidate.t) links (n : Z) st links' n' st' :
  forMatches teams cands links n st = (Return (links', n'), st') →
  n ≤ n' ≤ n + Z.of_nat (length cands) ∧
  (n' = n → links' = links) ∧
  (n < n' → ∃ c, c ∈ cands ∧ hasUrl links' (Candidate.matchKey c) = true).
Proof.
  cut (forMatches teams cands links n st = (Return (links', n'), st') →
       n ≤ n' ≤ n + Z.of_nat (length cands) ∧ (n' = n → links' = links) ∧
       (n < n' → ∃ c, c ∈ cands ∧ hasUrl links' (Candidate.matchKey c) = true) ∧
       (∀ k, hasUrl links k = true → hasUrl links' k = true)).
  { intros Hcut Hrun. destruct (Hcut Hrun) as (? & ? & ? & _). done. }
  apply (forMatches_steps teams (λ cs l m l' m',
    m ≤ m' ≤ m + Z.of_nat (length cs) ∧ (m' = m → l' = l) ∧
    (m < m' → ∃ c, c ∈ cs ∧ hasUrl l' (Candidate.matchKey c) = true) ∧
    (∀ k, hasUrl l k = true → hasUrl l' k = true))).
  - intros l m. repeat split; try lia. done.
  - intros c cs l m l1 m1 l2 m2 s s1 Hc (Hle & Hsame & Hfound & Hmono).
    pose proof (λ k, searchMatch_hasUrl _ _ _ _ _ _ _ _ k Hc) as Hstep.
    apply searchMatch_cases in Hc as [[-> ->] | (v & t & -> & -> & _)].
    + rewrite length_cons. repeat split; [lia|lia|done| |done].
      intros (c' & Hin & Hurl)%Hfound. exists c'. split; [by right|done].
    + rewrite length_cons. repeat split; [lia|lia|lia| |].
      * intros _. exists c. split; [by left|]. apply Hmono.
        unfold hasUrl. simpl. by rewrite lookup_insert_eq.
      * intros k Hk. by apply Hmono, Hstep.
Qed.

(** X12. [foundCount] counts the links stored: the loop raises it by at
    most one per fixture and never lowers it; if it is unchanged the store is
    unchanged, and if it grew then one of the fixtures searched has a url in
    the store afterwards. *)
Theorem forMatches_count teams (cands : list Candidate.t) links (n : Z) st :
  match forMatches teams cands links n st with
  | (Return (links', n'), _) =>
      n ≤ n' ≤ n + Z.of_nat (length cands) ∧
      (n' = n → links' = links) ∧
      (n < n' → ∃ c, c ∈ cands ∧ hasUrl links' (Candidate.matchKey c) = true)
  | (Throw, _) => True
  end.
Proof.
  destruct (forMatches teams cands links n st) as [[[links' n']|] st'] eqn:Hrun; [|done].
  by eapply forMatches_counting.
Qed.

Lemma forMatches_entries teams (cands : list Candidate.t) links (n : Z) st links' n' st' k :
  forMatches teams cands links n st = (Return (links', n'), st') →
  is_Some (Links.matches links !! k) → is_Some (Links.matches links' !! k).
Proof.
  apply (forMatches_steps teams (λ _ l _ l' _,
    is_Some (Links.matches l !! k) → is_Some (Links.matches l' !! k))).
  - done.
  - intros c cs l m l1 m1 l2 m2 s s1 Hc IH Hk. apply IH.
    apply searchMatch_cases in Hc as [[-> _] | (v & t & _ & -> & _)]; [done|].
    simpl. destruct (decide (k = Candidate.matchKey c)) as [->|Hne].
    + by rewrite lookup_insert_eq.
    + by rewrite lookup_insert_ne.
Qed.

(** X13. The loop over the fixtures never un-resolves a fixture and never
    removes an entry: a key that has a url before has one afterwards, and a
    key that has an entry before has one afterwards. *)
Theorem forMatches_keeps_resolved teams (cands : list Candidate.t) links (n : Z) st :
  match forMatches teams cands links n st with
  | (Return (links', _), _) =>
      (∀ k, hasUrl links k = true → hasUrl links' k = true) ∧
      (∀ k, is_Some (Links.matches links !! k) → is_Some (Links.matches links' !! k))
  | (Throw, _) => True
  end.
Proof.
  destruct (forMatches teams cands links n st) as [[[links' n']|] st'] eqn:Hrun; [|done].
  split; intros k; [by eapply forMatches_hasUrl | by eapply forMatches_entries].
Qed.

(** ** The candidate set *)

(** X14. In a normal run a fixture is a candidate exactly when its key has
    no url in the store, it has a non-empty [searchStart] that is a valid
    date, and the clock is at or after that time and at most 21600000 ms
    (six hours) after it, both ends included. *)
Theorem normal_mode_candidates (now : Z) spielplan links (c : Candidate.t) :
  c ∈ getMatchesToSearch now spielplan links None ↔
  ∃ matchday (match_ : Match.t) (s : string) (searchTime : Z),
    matchday ∈ Spielplan.matchdays spielplan ∧
    match_ ∈ Matchday.matches matchday ∧
    c = Candidate.mk (Matchday.matchday matchday) match_
          (matchKey_of (Matchday.matchday matchday) match_) ∧
    hasUrl links (matchKey_of (Matchday.matchday matchday) match_) = false ∧
    Match.searchStart match_ = Some s ∧ s ≠ "" ∧ Date_parse s = Some searchTime ∧
    searchTime ≤ now ≤ searchTime + 21600000.
Proof.
  rewrite elem_of_getMatchesToSearch. unfold searchWindowOpen, MAX_SEARCH_HOURS. split.
  - intros (md & m & Hmd & Hm & -> & Hfree & s & t & Hs & Hne & Hp & Hw).
    exists md, m, s, t. repeat split; try done; lia.
  - intros (md & m & s & t & Hmd & Hm & -> & Hfree & Hs & Hne & Hp & Hw).
    exists md, m. repeat split; try done. exists s, t. repeat split; try done; lia.
Qed.

Lemma bind_sublist {A B} (f g : A → list B) (l : list A) :
  (∀ x, f x `sublist_of` g x) → l ≫= f `sublist_of` l ≫= g.
Proof.
  intros Hfg. induction l as [|x l IH]; [done|].
  rewrite !bind_cons. by apply sublist_app.
Qed.

(** X15. The candidates come in the order of the schedule, matchday entry
    by matchday entry and fixture by fixture: the candidate list is a sublist
    of the list of all fixtures of the schedule, each with the number of its
    matchday entry and the key made from that number and the fixture. *)
Theorem candidates_in_schedule_order (now : Z) spielplan links (testMatchday : option Z) :
  getMatchesToSearch now spielplan links testMatchday `sublist_of`
  (Spielplan.matchdays spielplan ≫= λ matchday,
     (λ match_, Candidate.mk (Matchday.matchday matchday) match_
                  (matchKey_of (Matchday.matchday matchday) match_))
     <$> Matchday.matches matchday).
Proof.
  rewrite getMatchesToSearch_bind. apply bind_sublist. intros md.
  case_bool_decide; [apply sublist_nil_l|].
  induction (Matchday.matches md) as [|m ms IH]; [done|].
  rewrite bind_cons, fmap_cons. cbv zeta.
  match goal with
  | |- ?e ++ _ `sublist_of` ?x :: _ =>
      assert (e = [] ∨ e = [x]) as [-> | ->] by (repeat case_match; auto)
  end.
  - by apply sublist_cons.
  - by apply sublist_skip.
Qed.

(** X16. More links, fewer candidates: if every key with a url in one
    store has a url in another, then the candidates computed from the other
    store are a sublist of those computed from the first, for the same
    schedule, clock and mode. *)
Theorem candidates_antitone (now : Z) spielplan links links' (testMatchday : option Z)
    (Hmore : ∀ k, hasUrl links k = true → hasUrl links' k = true) :
  getMatchesToSearch now spielplan links' testMatchday `sublist_of`
  getMatchesToSearch now spielplan links testMatchday.
Proof.
  rewrite !getMatchesToSearch_bind. apply bind_sublist. intros md.
  case_bool_decide; [done|].
  apply bind_sublist. intros m. cbv zeta.
  destruct (hasUrl links _) eqn:Hurl.
  - by rewrite (Hmore _ Hurl).
  - destruct (hasUrl links' _); [apply sublist_nil_l | done].
Qed.

(** ** The whole run, continued *)

Lemma candidates_unresolved (now : Z) spielplan links (testMatchday : option Z) (k : string) :
  hasUrl links k = true →
  k ∉ Candidate.matchKey <$> getMatchesToSearch now spielplan links testMatchday.
Proof.
  intros Hk (c & -> & Hc)%list_elem_of_fmap.
  apply elem_of_getMatchesToSearch in Hc as (md & m & _ & _ & -> & Hfree & _).
  simpl in Hk. congruence.
Qed.

(** X17. If teams.json or spielplan.json does not load, or a search
    throws, the run ends with exit status 1 and links.json is left as it was,
    whatever was found before the throw. *)
Theorem main_exit_status files (testMatchday : option Z) st
    (Hfails :
       loadJSON (TEAMS_FILE files) = None ∨ loadJSON (SPIELPLAN_FILE files) = None ∨
       ∃ teams spielplan,
         loadJSON (TEAMS_FILE files) = Some teams ∧
         loadJSON (SPIELPLAN_FILE files) = Some spielplan ∧
         (forMatches teams
            (getMatchesToSearch (Date_now (world st)) spielplan
               (default (freshLinks (Date_now (world st))) (loadJSON (LINKS_FILE files)))
               testMatchday)
            (default (freshLinks (Date_now (world st))) (loadJSON (LINKS_FILE files)))
            0 st).1 = Throw) :
  (main files testMatchday st).1 = (Exit1, LINKS_FILE files).
Proof.
  destruct Hfails as [Hteams | [Hplan | (teams & spielplan & Hteams & Hplan & Hthrow)]].
  - rewrite main_not_loaded by (by left). done.
  - rewrite main_not_loaded by (by right). done.
  - rewrite (main_loaded _ _ _ _ _ Hteams Hplan). cbv zeta.
    case_bool_decide as Hempty.
    + apply length_zero_iff_nil in Hempty. by rewrite Hempty in Hthrow.
    + destruct (forMatches teams _ _ 0 st) as [[[links' n]|] st'] eqn:Hrun; simpl in *;
        congruence.
Qed.

(** X18. A run without candidates is silent: it ends with exit status 0,
    sends no query, makes no pause and leaves links.json as it is. *)
Theorem no_candidates_no_effect files (testMatchday : option Z) st teams spielplan
    (Hteams : loadJSON (TEAMS_FILE files) = Some teams)
    (Hplan : loadJSON (SPIELPLAN_FILE files) = Some spielplan)
    (Hnone : getMatchesToSearch (Date_now (world st)) spielplan
               (default (freshLinks (Date_now (world st))) (loadJSON (LINKS_FILE files)))
               testMatchday = []) :
  main files testMatchday st = (Exit0, LINKS_FILE files, st).
Proof.
  rewrite (main_loaded _ _ _ _ _ Hteams Hplan). cbv zeta. by rewrite Hnone.
Qed.

(** X19. A run never changes or removes what is resolved: with a
    links.json that loads, the run leaves behind a store in which every key
    that had a url holds the very same link, and every key that had an entry
    still has one. *)
Theorem main_preserves_links files (testMatchday : option Z) st links
    (Hfile : LINKS_FILE files = Parsed links) :
  ∃ links',
    (main files testMatchday st).1.2 = Parsed links' ∧
    (∀ k, hasUrl links k = true → Links.matches links' !! k = Links.matches links !! k) ∧
    (∀ k, is_Some (Links.matches links !! k) → is_Some (Links.matches links' !! k)).
Proof.
  destruct (loadJSON (TEAMS_FILE files)) as [teams|] eqn:Hteams;
    [destruct (loadJSON (SPIELPLAN_FILE files)) as [spielplan|] eqn:Hplan|].
  2,3: rewrite main_not_loaded by auto; exists links; by rewrite Hfile.
  rewrite (main_loaded _ _ _ _ _ Hteams Hplan). cbv zeta. rewrite Hfile. simpl.
  case_bool_decide; [by exists links|].
  destruct (forMatches teams _ links 0 st) as [[[links1 n]|] st'] eqn:Hrun; simpl;
    [|by exists links].
  case_bool_decide; [|by exists links].
  eexists. split; [done|]. simpl. split.
  - intros k Hk. apply (forMatches_untouched _ _ _ _ _ _ _ _ Hrun).
    by apply candidates_unresolved.
  - intros k. by eapply forMatches_entries.
Qed.

(** X20. links.json is rewritten only for something new: if the file after
    the run differs from the file before, the run ended with exit status 0,
    the file holds a store stamped with the time of the end of the run, and
    some key has a url in it that had none in the store the run started
    from. *)
Theorem main_rewrites_only_when_found files (testMatchday : option Z) st
    (Hchanged : (main files testMatchday st).1.2 ≠ LINKS_FILE files) :
  let links := default (freshLinks (Date_now (world st))) (loadJSON (LINKS_FILE files)) in
  (main files testMatchday st).1.1 = Exit0 ∧
  ∃ links' k,
    (main files testMatchday st).1.2 = Parsed links' ∧
    Links.lastUpdated links' = toISOString (Date_now (world (main files testMatchday st).2)) ∧
    hasUrl links' k = true ∧ hasUrl links k = false.
Proof.
  intros links. revert Hchanged.
  destruct (loadJSON (TEAMS_FILE files)) as [teams|] eqn:Hteams;
    [destruct (loadJSON (SPIELPLAN_FILE files)) as [spielplan|] eqn:Hplan|].
  2,3: by rewrite main_not_loaded by auto.
  rewrite (main_loaded _ _ _ _ _ Hteams Hplan). cbv zeta. fold links.
  case_bool_decide; [done|].
  destruct (forMatches teams _ links 0 st) as [[[links1 n]|] st'] eqn:Hrun; simpl; [|done].
  case_bool_decide as Hn; [|done]. intros _. split; [done|].
  destruct (forMatches_counting _ _ _ _ _ _ _ _ Hrun) as (_ & _ & Hfound).
  destruct Hfound as (c & Hc & Hurl); [lia|].
  eexists _, (Candidate.matchKey c). split; [done|]. split; [done|]. split; [done|].
  by apply elem_of_getMatchesToSearch in Hc as (md & m & _ & _ & -> & Hfree & _).
Qed.

(** X21. An answer with a success status whose body is not JSON is not
    taken for an empty result: [searchVideos] throws, and so do the keyword
    loop at that query and the search of a fixture whose first query it is. *)
Theorem malformed_body_throws (query : string) st w
    (Hbody : fetch query (world st) = (Responds true BodyNotJSON, w)) :
  searchVideos query st = (Throw, mkState w (issued st ++ [query])) ∧
  (∀ teams (match_ : Match.t) keywords,
     searchLoop teams match_ (query :: keywords) None None st
       = (Throw, mkState w (issued st ++ [query]))) ∧
  (∀ teams links (n : Z) (c : Candidate.t) keywords,
     combinedSearches teams (Candidate.fixture c) = query :: keywords →
     searchMatch teams links n c st = (Throw, mkState w (issued st ++ [query]))).
Proof.
  assert (searchVideos query st = (Throw, mkState w (issued st ++ [query]))) as Hthrow.
  { by rewrite searchVideos_eq, Hbody. }
  split; [done|]. split.
  - intros teams m keywords. by rewrite searchLoop_cons, Hthrow.
  - intros teams links n c keywords Hkw.
    by rewrite searchMatch_eq, Hkw, searchLoop_cons, Hthrow.
Qed.

(** ** Keywords, continued *)

Lemma combinedSearches_eq teams (match_ : Match.t) :
  let first := primaryKeyword teams (Match.home match_) +:+ " " +:+
               primaryKeyword teams (Match.away match_) in
  let derby := getDerbyKeywords (Match.home match_) (Match.away match_) teams in
  combinedSearches teams match_ =
  first :: derby ++
  filter (λ kw, kw ∉ first :: derby)
    (Set_spread (getAllKeywords (Match.home match_) teams ++
                 getAllKeywords (Match.away match_) teams)).
Proof.
  unfold combinedSearches. cbv zeta. rewrite !head_getAllKeywords.
  by rewrite push_all, push_new by apply Set_spread_NoDup.
Qed.

(** X22. No keyword is lost: the query list of a fixture consists of
    exactly the first query, the derby keywords and the keywords of the two
    teams; a team without configured keywords contributes its identifier.
    The list of a team's keywords is never empty. *)
Theorem combinedSearches_complete teams (match_ : Match.t) :
  (∀ kw,
     kw ∈ combinedSearches teams match_ ↔
     kw = primaryKeyword teams (Match.home match_) +:+ " " +:+
          primaryKeyword teams (Match.away match_) ∨
     kw ∈ getDerbyKeywords (Match.home match_) (Match.away match_) teams ∨
     kw ∈ getAllKeywords (Match.home match_) teams ∨
     kw ∈ getAllKeywords (Match.away match_) teams) ∧
  (∀ team, getAllKeywords team teams ≠ [] ∧
           (TeamsData.teams teams !! team ≫= Team.keywords = None →
            getAllKeywords team teams = [team])).
Proof.
  split.
  - intros kw. rewrite combinedSearches_eq. cbv zeta.
    rewrite elem_of_cons, elem_of_app, list_elem_of_filter, elem_of_Set_spread,
      elem_of_app, not_elem_of_cons.
    split; [tauto|].
    intros [?|[?|Hkw]]; [tauto..|].
    match goal with
    | |- kw = ?f ∨ _ => destruct (decide (kw = f)) as [?|Hne]; [by left|]
    end.
    destruct (decide (kw ∈ getDerbyKeywords (Match.home match_) (Match.away match_) teams));
      tauto.
  - intros team. unfold getAllKeywords.
    destruct (TeamsData.teams teams !! team) as [[[[|k ks]|]]|]; simpl; by split.
Qed.

(** X23. Derby keywords are looked up under 'home vs away' first: an entry
    there is used, with or without keywords, and hides an entry under
    'away vs home'; only without it the entry under 'away vs home' is used.
    So the lookup gives the same for both orders of the teams whenever at
    most one direction is registered. *)
Theorem getDerbyKeywords_directions (homeTeam awayTeam : string) teams
    (match_combinations : gmap string Combo.t)
    (Hconfig : TeamsData.match_combinations teams = Some match_combinations) :
  let key1 := homeTeam +:+ " vs " +:+ awayTeam in
  let key2 := awayTeam +:+ " vs " +:+ homeTeam in
  (∀ combo, match_combinations !! key1 = Some combo →
     getDerbyKeywords homeTeam awayTeam teams = default [] (Combo.keywords combo)) ∧
  (match_combinations !! key1 = None →
     getDerbyKeywords homeTeam awayTeam teams =
     match match_combinations !! key2 with
     | Some combo => default [] (Combo.keywords combo)
     | None => []
     end) ∧
  (match_combinations !! key1 = None ∨ match_combinations !! key2 = None →
     getDerbyKeywords homeTeam awayTeam teams = getDerbyKeywords awayTeam homeTeam teams).
Proof.
  intros key1 key2. unfold getDerbyKeywords. rewrite Hconfig. cbv zeta.
  fold key1. fold key2. split; [|split].
  - by intros combo ->.
  - by intros ->.
  - intros [-> | ->]; by destruct (match_combinations !! _).
Qed.

End MoreProperties.

(** * The earlier variant *)

Section LegacyProperties.
Context `{Host}.

Implicit Types (teams : TeamsData.t) (video : Video.t).
Implicit Types (links : Links.t) (spielplan : Spielplan.t) (st : State).

Lemma getSearchKeyword_primary teams (team : string) :
  Legacy.getSearchKeyword team teams = primaryKeyword teams team.
Proof.
  unfold Legacy.getSearchKeyword, primaryKeyword.
  by destruct (TeamsData.teams teams !! team) as [[[[|k ks]|]]|].
Qed.

(** X24. The keyword of the earlier variant is the first element of the
    keyword list of the current one, and the first query of the current
    variant is the home keyword and the away keyword of the earlier one,
    joined by a space. *)
Theorem getSearchKeyword_first teams (match_ : Match.t) :
  (∀ team, head (getAllKeywords team teams) = Some (Legacy.getSearchKeyword team teams)) ∧
  head (combinedSearches teams match_) =
    Some (Legacy.getSearchKeyword (Match.home match_) teams +:+ " " +:+
          Legacy.getSearchKeyword (Match.away match_) teams).
Proof.
  split.
  - intros team. unfold getAllKeywords, Legacy.getSearchKeyword.
    by destruct (TeamsData.teams teams !! team) as [[[[|k ks]|]]|].
  - rewrite combinedSearches_eq. cbv zeta. by rewrite !getSearchKeyword_primary.
Qed.

Lemma Legacy_getMatchesToSearch_bind (now : Z) spielplan links (testMatchday : option Z) :
  Legacy.getMatchesToSearch now spielplan links testMatchday =
  Spielplan.matchdays spielplan ≫= λ matchday,
    if bool_decide (testMatchday ≠ None ∧ Some (Matchday.matchday matchday) ≠ testMatchday)
    then []
    else Matchday.matches matchday ≫= λ match_,
      let matchKey := Legacy.matchKey_of match_ in
      let entry := Candidate.mk (Matchday.matchday matchday) match_ matchKey in
      if hasUrl links matchKey then []
      else if bool_decide (testMatchday ≠ None) then [entry]
      else if truthy (Match.searchStart match_) then
        match Match.searchStart match_ ≫= Date_parse with
        | Some searchTime =>
            if bool_decide (now >= searchTime) &&
               bool_decide (now <= searchTime + MAX_SEARCH_HOURS * 60 * 60 * 1000)
            then [entry] else []
        | None => []
        end
      else [].
Proof.
  unfold Legacy.getMatchesToSearch.
  match goal with |- _ = ?r => change r with ([] ++ r) end.
  apply foldl_push.
  intros acc matchday. case_bool_decide; [by rewrite app_nil_r|].
  apply foldl_push. intros acc' match_. cbv zeta.
  repeat case_match; by rewrite ?app_nil_r.
Qed.

Lemma Legacy_candidate (now : Z) spielplan links (testMatchday : option Z) (c : Candidate.t) :
  c ∈ Legacy.getMatchesToSearch now spielplan links testMatchday →
  Candidate.matchKey c = Legacy.matchKey_of (Candidate.fixture c) ∧
  hasUrl links (Legacy.matchKey_of (Candidate.fixture c)) = false ∧
  ∃ matchday, matchday ∈ Spielplan.matchdays spielplan ∧
    Candidate.matchday c = Matchday.matchday matchday ∧
    Candidate.fixture c ∈ Matchday.matches matchday.
Proof.
  rewrite Legacy_getMatchesToSearch_bind.
  intros (md & Hc & Hmd)%list_elem_of_bind.
  case_bool_decide; [by apply elem_of_nil in Hc|].
  apply list_elem_of_bind in Hc as (m & Hc & Hm). cbv zeta in Hc.
  destruct (hasUrl links (Legacy.matchKey_of m)) eqn:Hurl; [by apply elem_of_nil in Hc|].
  assert (c = Candidate.mk (Matchday.matchday md) m (Legacy.matchKey_of m)) as ->.
  { repeat case_match; try (by apply elem_of_nil in Hc);
      by apply list_elem_of_singleton in Hc. }
  simpl. repeat split; [done|]. by exists md.
Qed.

(** X25. The key of the earlier variant does not carry the matchday: once
    a pairing of home and away has a url in the store, no fixture with that
    home and that away is a candidate any more, on whatever matchday it is
    played. *)
Theorem legacy_key_blocks_pairing (now : Z) spielplan links (testMatchday : option Z)
    (match_ : Match.t)
    (Hresolved : hasUrl links (Legacy.matchKey_of match_) = true) :
  ∀ c, c ∈ Legacy.getMatchesToSearch now spielplan links testMatchday →
    ¬ (Match.home (Candidate.fixture c) = Match.home match_ ∧
       Match.away (Candidate.fixture c) = Match.away match_).
Proof.
  intros c (_ & Hfree & _)%Legacy_candidate [Hhome Haway].
  unfold Legacy.matchKey_of in *. rewrite Hhome, Haway in Hfree. congruence.
Qed.

Lemma searchAndStore_issued teams links (n : Z) (c : Candidate.t) (keyword : string) st r st' :
  Legacy.searchAndStore teams links n c keyword st = (r, st') →
  issued st' = issued st ++ [keyword].
Proof.
  unfold Legacy.searchAndStore, mbind, Async_bind.
  destruct (searchVideos keyword st) as [[results|] st1] eqn:Hq;
    apply searchVideos_issued in Hq.
  - destruct (Legacy.scanResults _ _ results None None) as [[sa|] [se|]]; simpl;
      by intros [= _ <-].
  - by intros [= _ <-].
Qed.

Lemma Legacy_searchMatch_eq teams links (n : Z) (c : Candidate.t) st :
  let homeKeyword := Legacy.getSearchKeyword (Match.home (Candidate.fixture c)) teams in
  let awayKeyword := Legacy.getSearchKeyword (Match.away (Candidate.fixture c)) teams in
  let pause st := mkState (setTimeout 300 (world st)) (issued st) in
  Legacy.searchMatch teams links n c st =
  match Legacy.searchAndStore teams links n c homeKeyword st with
  | (Return (links1, n1), st1) =>
      if hasUrl links1 (Candidate.matchKey c) || String.eqb awayKeyword homeKeyword
      then (Return (links1, n1), pause st1)
      else
        match Legacy.searchAndStore teams links1 n1 c awayKeyword st1 with
        | (Return (links2, n2), st2) => (Return (links2, n2), pause st2)
        | (Throw, st2) => (Throw, st2)
        end
  | (Throw, st1) => (Throw, st1)
  end.
Proof.
  cbv zeta. unfold Legacy.searchMatch. cbv zeta. unfold mbind at 1. unfold Async_bind at 1.
  destruct (Legacy.searchAndStore teams links n c _ st) as [[[links1 n1]|] st1]; [|done].
  unfold mbind at 1. unfold Async_bind at 1.
  destruct (hasUrl links1 (Candidate.matchKey c)); simpl; [done|].
  destruct (String.eqb _ _); simpl; [done|].
  by destruct (Legacy.searchAndStore teams links1 n1 c _ st1) as [[[links2 n2]|] st2].
Qed.

(** X26. The earlier variant sends one or two queries for a fixture: the
    home team's keyword always, and the away team's only if the first search
    returned, the fixture's key has no url in the store after it, and the
    two keywords differ. *)
Theorem legacy_two_queries teams links (n : Z) (c : Candidate.t) st :
  let homeKeyword := Legacy.getSearchKeyword (Match.home (Candidate.fixture c)) teams in
  let awayKeyword := Legacy.getSearchKeyword (Match.away (Candidate.fixture c)) teams in
  let sent := issued (Legacy.searchMatch teams links n c st).2 in
  match Legacy.searchAndStore teams links n c homeKeyword st with
  | (Return (links1, _), _) =>
      if hasUrl links1 (Candidate.matchKey c) || String.eqb awayKeyword homeKeyword
      then sent = issued st ++ [homeKeyword]
      else sent = issued st ++ [homeKeyword; awayKeyword]
  | (Throw, _) => sent = issued st ++ [homeKeyword]
  end.
Proof.
  cbv zeta. rewrite Legacy_searchMatch_eq. cbv zeta.
  destruct (Legacy.searchAndStore teams links n c _ st) as [[[links1 n1]|] st1] eqn:Hhome;
    apply searchAndStore_issued in Hhome; [|done].
  destruct (_ || _); [done|].
  destruct (Legacy.searchAndStore teams links1 n1 c _ st1) as [[[links2 n2]|] st2] eqn:Haway;
    apply searchAndStore_issued in Haway; simpl; rewrite Haway, Hhome;
    by rewrite <- app_assoc.
Qed.

(** X27. The current variant is the earlier one with the date and duration
    checks added: a clip is acceptable exactly when it mentions a team, its
    date is valid for the fixture and it is long enough; and on a result
    list whose clips all pass the date and the duration check the two
    variants retain the same clips. *)
Theorem variants_agree_on_valid_clips teams (match_ : Match.t) (results : list Video.t)
    (Hvalid : ∀ v, v ∈ results →
       isVideoDateValid v (Match.date match_) = true ∧ isVideoLongEnough v = true) :
  (∀ v, isAcceptable teams match_ v =
        Legacy.mentionsTeam teams match_ v && isVideoDateValid v (Match.date match_) &&
        isVideoLongEnough v) ∧
  ∀ standaloneMatch sendungMatch,
    Legacy.scanResults teams match_ results standaloneMatch sendungMatch =
    scanResults teams match_ results standaloneMatch sendungMatch.
Proof.
  split; [done|].
  induction results as [|v results IH]; intros sa se; [done|].
  destruct (Hvalid v) as [Hdate Hlong]; [by left|].
  assert (isAcceptable teams match_ v = Legacy.mentionsTeam teams match_ v) as Hacc.
  { unfold isAcceptable, Legacy.mentionsTeam. cbv zeta.
    by rewrite Hdate, Hlong, !andb_true_r. }
  simpl. rewrite Hacc.
  destruct (Legacy.mentionsTeam teams match_ v);
    repeat (case_match; simplify_eq/=; try done);
    apply IH; intros w Hw; apply Hvalid; by right.
Qed.

End LegacyProperties.

(** * The crawler on the concrete host *)

Section Examples.
#[local] Existing Instance UTC.host.

Example Date_parse_day : UTC.Date_parse "2024-03-10" = Some 1710028800000.
Proof. reflexivity. Qed.

Example Date_parse_time : UTC.Date_parse "2024-03-12T21:45:10Z" = Some 1710279910000.
Proof. reflexivity. Qed.

Example toISOString_time : UTC.toISOString 1710279910123 = "2024-03-12T21:45:10.123Z".
Proof. reflexivity. Qed.

Example toLowerCase_title : UTC.toLowerCase "FC Basel - YB" = "fc basel - yb".
Proof. reflexivity. Qed.


Example isAcceptable_samples :
  isAcceptable Demo.teams Demo.fixture <$>
    [Demo.highlight; Demo.broadcast; Demo.interview; Demo.news; Demo.no_duration] =
  [true; true; true; true; false].
Proof. reflexivity. Qed.

(** ** The schedule gate *)

(** In the evening of the match day the fixture is inside its search
    window, yet with its link in the store it is no candidate, in no mode. *)
Lemma resolved_fixture_never_candidate_witness :
  Links.matches Demo.links !! matchKey_of 5 Demo.fixture
    = Some (Demo.link_of Demo.highlight "2024-03-10T22:00:00.000Z" Standalone) ∧
  searchWindowOpen Demo.evening Demo.fixture ∧
  ∀ (testMatchday : option Z) c,
    c ∈ getMatchesToSearch Demo.evening Demo.spielplan Demo.links testMatchday →
    Candidate.matchKey c ≠ matchKey_of 5 Demo.fixture ∧
    ¬ (Candidate.matchday c = 5 ∧ Candidate.fixture c = Demo.fixture).
Proof.
  split; [vm_compute; reflexivity|]. split.
  - exists "2024-03-10T18:00:00Z", 1710093600000.
    repeat split; [discriminate | vm_compute; discriminate | vm_compute; discriminate].
  - intros testMatchday.
    apply (resolved_fixture_never_candidate Demo.evening Demo.spielplan Demo.links
             testMatchday 5 Demo.fixture
             (Demo.link_of Demo.highlight "2024-03-10T22:00:00.000Z" Standalone)
             "https://www.srf.ch/play/tv/-/video/-?urn=urn:srf:video:1");
      [vm_compute; reflexivity | reflexivity | discriminate].
Defined.

(** A test run of matchday 5 takes the fixture whose search starts in 2025
    and leaves out the resolved fixture and matchday 6. *)
Lemma test_mode_candidates_witness :
  Candidate.mk 5 Demo.future_fixture "5_FC C - FC D"
    ∈ getMatchesToSearch Demo.evening Demo.spielplan Demo.links (Some 5) ∧
  getMatchesToSearch Demo.evening Demo.spielplan Demo.links (Some 5)
    = [Candidate.mk 5 Demo.future_fixture "5_FC C - FC D"] ∧
  getMatchesToSearch Demo.evening Demo.spielplan Demo.links None = [].
Proof.
  split; [|split; vm_compute; reflexivity].
  apply (proj1 (test_mode_candidates Demo.spielplan Demo.links 5)).
  exists (Matchday.mk 5 [Demo.fixture; Demo.future_fixture]), Demo.future_fixture.
  repeat split.
  - apply list_elem_of_here.
  - apply list_elem_of_further, list_elem_of_here.
Defined.

(** ** Clip validation *)

Lemma short_clip_rejected_witness :
  default 0 (Video.duration Demo.no_duration) < 90000 ∧
  isAcceptable Demo.teams Demo.fixture Demo.no_duration = false ∧
  ∀ results standaloneMatch sendungMatch,
    scanResults Demo.teams Demo.fixture results None None = (standaloneMatch, sendungMatch) →
    standaloneMatch ≠ Some Demo.no_duration ∧ sendungMatch ≠ Some Demo.no_duration.
Proof.
  split; [reflexivity|].
  apply (short_clip_rejected Demo.teams Demo.fixture Demo.no_duration). reflexivity.
Defined.

(** With the fixture on 2024-03-10 in UTC: a clip of the last second of the
    same day and one of the last second of 03-12 pass, a clip of the first
    second of 03-13 and one of the last second of 03-09 fail, and so does a
    clip whose only date field is empty. *)
Lemma date_window_witness :
  isVideoDateValid (Demo.dated "2024-03-10T23:59:59Z") "2024-03-10" = true ∧
  isVideoDateValid (Demo.dated "2024-03-12T23:59:59Z") "2024-03-10" = true ∧
  isVideoDateValid (Demo.dated "2024-03-13T00:00:00Z") "2024-03-10" = false ∧
  isVideoDateValid (Demo.dated "2024-03-09T23:59:59Z") "2024-03-10" = false ∧
  isVideoDateValid Demo.undated "2024-03-10" = false.
Proof.
  pose proof (λ date tv k,
    proj2 (proj2 (date_window (Demo.dated date) "2024-03-10"))
      date tv 1710028800000 k) as Hday.
  split; [|split; [|split; [|split]]].
  - apply (Hday "2024-03-10T23:59:59Z" 1710115199000 0); reflexivity.
  - apply (Hday "2024-03-12T23:59:59Z" 1710287999000 2); reflexivity.
  - apply (Hday "2024-03-13T00:00:00Z" 1710288000000 3); reflexivity.
  - apply (Hday "2024-03-09T23:59:59Z" 1710028799000 (-1)); reflexivity.
  - apply (proj1 (proj2 (date_window Demo.undated "2024-03-10"))). reflexivity.
Defined.

(** ** Keywords *)

(** C4, on the code. The derby entry of the pair, registered as
    'FC B vs FC A' and found for the fixture FC A against FC B, holds a
    keyword equal to the first query. The derby loop pushes it without the
    membership test of the loop after it, so the query list holds
    'FC A FC B' twice: it is not free of duplicates. *)
Lemma combinedSearches_duplicate :
  combinedSearches Demo.teams_derby Demo.fixture =
    ["FC A FC B"; "Derby AB"; "FC A FC B"; "FC A"; "Club A"; "FC B"] ∧
  ¬ NoDup (combinedSearches Demo.teams_derby Demo.fixture).
Proof.
  split; [reflexivity|].
  intros [Hfirst _]%NoDup_cons. apply Hfirst.
  apply list_elem_of_further, list_elem_of_here.
Qed.

Lemma combinedSearches_spec_witness :
  combinedSearches Demo.teams Demo.fixture = ["FC A FC B"; "FC A"; "Club A"; "FC B"] ∧
  NoDup (combinedSearches Demo.teams Demo.fixture).
Proof.
  destruct (combinedSearches_spec Demo.teams Demo.fixture) as (Heq & _ & _ & Hnodup).
  split; [rewrite Heq; reflexivity|].
  apply Hnodup. apply NoDup_singleton.
Defined.

(** ** Searching *)

(** The Sendung clip comes first, the Standalone clip second: the query
    gives the Standalone clip, and the clip after it plays no part. *)
Lemma standalone_preferred_witness :
  sendungEligible Demo.teams Demo.fixture Demo.broadcast = true ∧
  standaloneEligible Demo.teams Demo.fixture Demo.highlight = true ∧
  winner Demo.teams Demo.fixture [Demo.broadcast; Demo.highlight; Demo.interview]
    = (Some Demo.highlight, Some Standalone) ∧
  scanResults Demo.teams Demo.fixture [Demo.broadcast; Demo.highlight; Demo.interview]
      None None
    = (Some Demo.highlight, Some Demo.broadcast) ∧
  winner Demo.teams Demo.fixture [Demo.news; Demo.broadcast]
    = (Some Demo.broadcast, Some Sendung).
Proof.
  split; [reflexivity|]. split; [reflexivity|].
  destruct (standalone_preferred Demo.teams Demo.fixture) as [Hfirst Hfallback].
  destruct (Hfirst [Demo.broadcast] Demo.highlight [Demo.interview])
    as (_ & Hscan & Hwin & _).
  { intros v ->%list_elem_of_singleton. reflexivity. }
  { reflexivity. }
  split; [exact Hwin|]. split; [exact Hscan|].
  destruct (Hfallback [Demo.news; Demo.broadcast]) as [_ Hwin'].
  { intros v [->|[->|[]%elem_of_nil]%elem_of_cons]%elem_of_cons; reflexivity. }
  exact Hwin'.
Defined.

(** The first query finds nothing, the second finds the Standalone clip,
    the third and fourth are never sent. With nothing but a Tagesschau clip
    all four are sent and the result is null. *)
Lemma queries_stop_at_first_winner_witness :
  let keywords := combinedSearches Demo.teams Demo.fixture in
  let st := Demo.start Demo.evening [("FC A", Demo.found [Demo.highlight])] in
  let st_news := Demo.start Demo.evening [("FC A FC B", Demo.found [Demo.news])] in
  keywords = ["FC A FC B"; "FC A"; "Club A"; "FC B"] ∧
  (searchLoop Demo.teams Demo.fixture keywords None None st).1
    = Return (Some Demo.highlight, Some Standalone) ∧
  issued (searchLoop Demo.teams Demo.fixture keywords None None st).2
    = ["FC A FC B"; "FC A"] ∧
  (searchLoop Demo.teams Demo.fixture keywords None None st_news).1
    = Return (None, None) ∧
  issued (searchLoop Demo.teams Demo.fixture keywords None None st_news).2 = keywords.
Proof.
  intros keywords st st_news.
  destruct (queries_stop_at_first_winner Demo.teams Demo.fixture)
    as (_ & Hstop & Hnone & _).
  split; [reflexivity|].
  destruct (Hstop ["FC A FC B"] "FC A" ["Club A"; "FC B"] st
              (paused (mkState (world st) ["FC A FC B"]))
              (mkState (setTimeout 200 (world st)) ["FC A FC B"; "FC A"])
              [Demo.highlight] Demo.highlight (Some Standalone))
    as [Hrun Hsent]; [reflexivity..|].
  change keywords with (["FC A FC B"] ++ "FC A" :: ["Club A"; "FC B"]).
  rewrite Hrun. split; [reflexivity|]. split; [exact Hsent|].
  destruct (Hnone (["FC A FC B"] ++ "FC A" :: ["Club A"; "FC B"])
              (λ st0, UTC.api (world st0) = [("FC A FC B", Demo.found [Demo.news])])
              st_news)
    as (st' & Hrun' & Hsent'); [reflexivity| |].
  { intros keyword [w sent] _ Hapi. simpl in Hapi.
    exists (if String.eqb "FC A FC B" keyword then [Demo.news] else []),
           (mkState w (sent ++ [keyword])).
    split; [|split; [exact Hapi|]].
    - rewrite searchVideos_eq.
      change (fetch keyword (world (mkState w sent)))
        with (UTC.answer (UTC.api w) keyword, w).
      rewrite Hapi.
      change (UTC.answer [("FC A FC B", Demo.found [Demo.news])] keyword)
        with (if String.eqb "FC A FC B" keyword then Demo.found [Demo.news]
              else Responds true (BodyJSON (Some []))).
      by destruct (String.eqb "FC A FC B" keyword).
    - intros v Hv. destruct (String.eqb "FC A FC B" keyword).
      + apply list_elem_of_singleton in Hv as ->. split; reflexivity.
      + by apply elem_of_nil in Hv. }
  rewrite Hrun'. split; [reflexivity | exact Hsent'].
Defined.

(** ** Failures of the search API *)

(** The connection fails on the first query. The call does not return an
    empty list, it throws; the second query, which would have found the
    Standalone clip, is never sent, and the run ends with exit status 1. *)
Lemma transport_failure_aborts :
  let st := Demo.start Demo.evening
              [("FC A FC B", FetchRejects); ("FC A", Demo.found [Demo.highlight])] in
  (fetch "FC A FC B" (world st)).1 = FetchRejects ∧
  (searchVideos "FC A FC B" st).1 = Throw ∧
  (searchVideos "FC A FC B" st).1 ≠ Return [] ∧
  combinedSearches Demo.teams Demo.fixture = ["FC A FC B"; "FC A"; "Club A"; "FC B"] ∧
  main (Demo.files Missing) (Some 5) st = (Exit1, Missing, mkState (world st) ["FC A FC B"]).
Proof.
  repeat split. discriminate.
Qed.

(** The API answers the first query with a non-success status: the second
    query is sent and finds the clip, and the following fixture is searched
    as well. An API that rejects the connection ends the run. *)
Lemma search_failures_witness :
  let down := Responds false BodyNotJSON in
  let st := Demo.start Demo.evening
              [("FC A FC B", down); ("FC A", Demo.found [Demo.highlight])] in
  let st_off := Demo.start Demo.evening [("FC A FC B", FetchRejects)] in
  searchVideos "FC A FC B" st = (Return [], mkState (world st) ["FC A FC B"]) ∧
  (searchLoop Demo.teams Demo.fixture (combinedSearches Demo.teams Demo.fixture)
     None None st).1 = Return (Some Demo.highlight, Some Standalone) ∧
  issued (main (Demo.files Missing) (Some 5) st).2
    = ["FC A FC B"; "FC A"; "FC C FC D"; "FC C"; "FC D"] ∧
  main (Demo.files Missing) (Some 5) st_off
    = (Exit1, Missing, mkState (world st_off) ["FC A FC B"]).
Proof.
  intros down st st_off.
  destruct (search_failures Demo.teams)
    as (Hempty & Hnext & Hthrow & Hloop & Hfixtures & Hrun).
  split; [|split; [|split]].
  - apply (Hempty "FC A FC B" st BodyNotJSON). reflexivity.
  - change (combinedSearches Demo.teams Demo.fixture)
      with ([] ++ "FC A FC B" :: ["FC A"; "Club A"; "FC B"]).
    rewrite (Hnext Demo.fixture [] "FC A FC B" ["FC A"; "Club A"; "FC B"] st st
               BodyNotJSON (world st)) by reflexivity.
    reflexivity.
  - vm_compute. reflexivity.
  - apply (Hrun (Demo.files Missing) (Some 5) st_off Demo.spielplan); [reflexivity..|].
    apply (Hfixtures [] (Candidate.mk 5 Demo.fixture "5_FC A - FC B")
             [Candidate.mk 5 Demo.future_fixture "5_FC C - FC D"]
             (freshLinks Demo.evening) 0 st_off (freshLinks Demo.evening) 0 st_off
             (mkState (world st_off) ["FC A FC B"])); [reflexivity|].
    apply (Hloop Demo.fixture [] "FC A FC B" ["FC A"; "Club A"; "FC B"] st_off st_off
             (world st_off)); reflexivity.
Defined.

(** ** A corrupt links.json *)

(** links.json is unparseable. In a normal run two days after the match
    the fixture is outside its search window: it is no candidate, and the
    file stays as it is. In a test run of matchday 6 the fixture of that
    matchday is searched, nothing is found, and the file stays as well. *)
Lemma corrupt_links_file_not_overwritten :
  let st := Demo.start Demo.two_days_later [] in
  Demo.fixture ∈ Matchday.matches (Matchday.mk 5 [Demo.fixture; Demo.future_fixture]) ∧
  getMatchesToSearch Demo.two_days_later Demo.spielplan
    (freshLinks Demo.two_days_later) None = [] ∧
  main (Demo.files Unparseable) None st = (Exit0, Unparseable, st) ∧
  (main (Demo.files Unparseable) (Some 6) st).1 = (Exit0, Unparseable) ∧
  issued (main (Demo.files Unparseable) (Some 6) st).2
    = ["FC B FC A"; "FC B"; "FC A"; "Club A"].
Proof.
  split; [apply list_elem_of_here|]. repeat split.
Qed.

(** links.json is unparseable and the test run of matchday 5 finds the
    clip: the fixture is searched again although the store before the
    corruption had its link, and the file is written with the new store. *)
Lemma corrupt_links_file_witness :
  let st := Demo.start Demo.evening [("FC A", Demo.found [Demo.highlight])] in
  LINKS_FILE (Demo.files Unparseable) = Unparseable ∧
  Candidate.matchKey <$>
    getMatchesToSearch Demo.evening Demo.spielplan (freshLinks Demo.evening) (Some 5)
    = ["5_FC A - FC B"; "5_FC C - FC D"] ∧
  (main (Demo.files Unparseable) (Some 5) st).1 =
  (Exit0,
   Parsed (Links.mk "2024-03-10T22:00:01.000Z"
             {[ "5_FC A - FC B" :=
                  Demo.link_of Demo.highlight "2024-03-10T22:00:00.400Z" Standalone ]})).
Proof.
  intros st. split; [reflexivity|]. split; [reflexivity|].
  destruct (corrupt_links_file (Demo.files Unparseable) (Some 5) st (or_intror eq_refl))
    as (_ & _ & Habsent & _).
  rewrite Habsent. vm_compute. reflexivity.
Defined.

(** ** The title blacklist *)

(** C1, on the code. The clip 'Trainer-Interview FC A' is on the blacklist
    of [isNotBlacklisted], but [crawl] never asks: the clip passes the
    acceptance test, wins its query as Standalone, and its link is stored. *)
Theorem blacklisted_clip_accepted :
  let st := Demo.start Demo.evening [("FC A FC B", Demo.found [Demo.interview])] in
  isNotBlacklisted Demo.interview = false ∧
  isAcceptable Demo.teams Demo.fixture Demo.interview = true ∧
  (searchLoop Demo.teams Demo.fixture (combinedSearches Demo.teams Demo.fixture)
     None None st).1 = Return (Some Demo.interview, Some Standalone) ∧
  ∃ links', (main (Demo.files Missing) (Some 5) st).1 = (Exit0, Parsed links') ∧
    Links.matches links' !! "5_FC A - FC B"
      = Some (Demo.link_of Demo.interview "2024-03-10T22:00:00.200Z" Standalone).
Proof.
  intros st. split; [reflexivity|]. split; [reflexivity|]. split; [reflexivity|].
  eexists. split; [vm_compute; reflexivity|]. vm_compute. reflexivity.
Qed.

End Examples.

(** * Further examples on the concrete host *)

Section MoreExamples.
#[local] Existing Instance UTC.host.

(** With the empty keyword in FC A's list, a text about something else
    mentions FC A. *)
Lemma empty_keyword_matches_everything_witness :
  "" ∈ ["FC A"; ""] ∧
  findTeamInText "Tagesschau vom Sonntag" "FC A" Cases.teams_blank = true ∧
  findTeamInText "Tagesschau vom Sonntag" "FC A" Demo.teams = false.
Proof.
  split; [apply list_elem_of_further, list_elem_of_here|].
  split; [|reflexivity].
  apply (empty_keyword_matches_everything "FC A" Cases.teams_blank
           (Team.mk (Some ["FC A"; ""])) ["FC A"; ""]);
    [reflexivity | vm_compute; reflexivity | reflexivity
    | apply list_elem_of_further, list_elem_of_here].
Defined.

(** The clip's [date] is 'gestern': its valid [validFrom] does not help. *)
Lemma present_date_shadows_witness :
  Video.date Cases.bad_date = Some "gestern" ∧
  Date_parse "gestern" = None ∧
  Date_parse "2024-03-10T21:30:00Z" = Some 1710106200000 ∧
  isVideoDateValid Cases.bad_date "2024-03-10" = false.
Proof.
  split; [reflexivity|]. split; [reflexivity|]. split; [reflexivity|].
  apply (proj2 (present_date_shadows Cases.bad_date "2024-03-10" "gestern"
                  eq_refl ltac:(discriminate))).
  reflexivity.
Defined.

(** Dropping the clips that are too short changes nothing. *)
Lemma winner_ignores_unacceptable_witness :
  List.filter isVideoLongEnough [Demo.no_duration; Demo.broadcast; Cases.old_short]
    = [Demo.broadcast] ∧
  winner Demo.teams Demo.fixture [Demo.broadcast]
    = winner Demo.teams Demo.fixture [Demo.no_duration; Demo.broadcast; Cases.old_short].
Proof.
  split; [reflexivity|].
  apply (winner_ignores_unacceptable Demo.teams Demo.fixture isVideoLongEnough
           [Demo.no_duration; Demo.broadcast; Cases.old_short]).
  intros v [->|[->|[->|[]%elem_of_nil]%elem_of_cons]%elem_of_cons]%elem_of_cons;
    vm_compute; intros; congruence.
Defined.

(** The fixture's date is 'offen': the Standalone clip of the match day is
    not acceptable for it, and the search ends without a video. *)
Lemma unparsable_fixture_date_never_resolved_witness :
  Date_parse (Match.date Cases.undated_fixture) = None ∧
  isAcceptable Demo.teams Demo.fixture Demo.highlight = true ∧
  isAcceptable Demo.teams Cases.undated_fixture Demo.highlight = false ∧
  (searchLoop Demo.teams Cases.undated_fixture
     (combinedSearches Demo.teams Cases.undated_fixture) None None
     (Demo.start Demo.evening [("FC A FC B", Demo.found [Demo.highlight])])).1
    = Return (None, None).
Proof.
  assert (Date_parse (Match.date Cases.undated_fixture) = None) as Hdate by reflexivity.
  split; [exact Hdate|]. split; [reflexivity|].
  destruct (unparsable_fixture_date_never_resolved Demo.teams Cases.undated_fixture Hdate)
    as (Hacc & _).
  split; [apply Hacc|]. vm_compute. reflexivity.
Defined.

(** With the fixture's link in the store the normal run of the evening has
    no candidate; with an empty store it has the fixture. *)
Lemma candidates_antitone_witness :
  getMatchesToSearch Demo.evening Demo.spielplan Demo.links None = [] ∧
  Candidate.matchKey <$>
    getMatchesToSearch Demo.evening Demo.spielplan (freshLinks Demo.evening) None
    = ["5_FC A - FC B"] ∧
  getMatchesToSearch Demo.evening Demo.spielplan Demo.links None `sublist_of`
  getMatchesToSearch Demo.evening Demo.spielplan (freshLinks Demo.evening) None.
Proof.
  split; [reflexivity|]. split; [reflexivity|].
  apply (candidates_antitone Demo.evening Demo.spielplan (freshLinks Demo.evening)
           Demo.links None).
  intros k Hk. unfold hasUrl, freshLinks in Hk. simpl in Hk.
  by rewrite lookup_empty in Hk.
Defined.

(** The normal run of the evening with the fixture resolved: nothing to do. *)
Lemma no_candidates_no_effect_witness :
  let st := Demo.start Demo.evening [("FC A FC B", Demo.found [Demo.highlight])] in
  main (Demo.files (Parsed Demo.links)) None st = (Exit0, Parsed Demo.links, st).
Proof.
  intros st.
  apply (no_candidates_no_effect (Demo.files (Parsed Demo.links)) None st
           Demo.teams Demo.spielplan); reflexivity.
Defined.

(** The test run of matchday 5 resolves the second fixture and leaves the
    link of the first as it is. *)
Lemma main_preserves_links_witness :
  let st := Demo.start Demo.evening [("FC C FC D", Demo.found [Cases.future_clip])] in
  ∃ links',
    (main (Demo.files (Parsed Demo.links)) (Some 5) st).1.2 = Parsed links' ∧
    Links.matches links' !! "5_FC A - FC B"
      = Some (Demo.link_of Demo.highlight "2024-03-10T22:00:00.000Z" Standalone) ∧
    Links.matches links' !! "5_FC C - FC D"
      = Some (Demo.link_of Cases.future_clip "2024-03-10T22:00:00.200Z" Standalone).
Proof.
  intros st.
  destruct (main_preserves_links (Demo.files (Parsed Demo.links)) (Some 5) st Demo.links
              eq_refl) as (links' & Hfile & Hkept & _).
  exists links'. split; [exact Hfile|]. split.
  - rewrite Hkept by (vm_compute; reflexivity). vm_compute. reflexivity.
  - assert ((main (Demo.files (Parsed Demo.links)) (Some 5) st).1.2 =
            Parsed (Links.mk "2024-03-10T22:00:00.200Z"
              (<["5_FC C - FC D" :=
                   Demo.link_of Cases.future_clip "2024-03-10T22:00:00.200Z" Standalone]>
                 (Links.matches Demo.links)))) as Hrun by (vm_compute; reflexivity).
    rewrite Hfile in Hrun. injection Hrun as ->. vm_compute. reflexivity.
Defined.

(** A test run that finds the clip writes links.json, which was absent. *)
Lemma main_rewrites_only_when_found_witness :
  let st := Demo.start Demo.evening [("FC A", Demo.found [Demo.highlight])] in
  (main (Demo.files Missing) (Some 5) st).1.2 ≠ Missing ∧
  (main (Demo.files Missing) (Some 5) st).1.1 = Exit0 ∧
  ∃ links' k,
    (main (Demo.files Missing) (Some 5) st).1.2 = Parsed links' ∧
    Links.lastUpdated links' = "2024-03-10T22:00:01.000Z" ∧
    hasUrl links' k = true ∧ hasUrl (freshLinks Demo.evening) k = false.
Proof.
  intros st.
  assert ((main (Demo.files Missing) (Some 5) st).1.2 ≠ Missing) as Hchanged
    by (vm_compute; discriminate).
  split; [exact Hchanged|].
  destruct (main_rewrites_only_when_found (Demo.files Missing) (Some 5) st Hchanged)
    as (Hexit & links' & k & Hfile & Hstamp & Hnew & Hold).
  split; [exact Hexit|]. exists links', k.
  split; [exact Hfile|]. split; [|by split].
  rewrite Hstamp. vm_compute. reflexivity.
Defined.

(** The API answers 200 with a body that is not JSON: the run ends with
    exit status 1 after the first query. *)
Lemma malformed_body_throws_witness :
  let st := Demo.start Demo.evening [("FC A FC B", Responds true BodyNotJSON)] in
  searchVideos "FC A FC B" st = (Throw, mkState (world st) ["FC A FC B"]) ∧
  main (Demo.files Missing) (Some 5) st = (Exit1, Missing, mkState (world st) ["FC A FC B"]).
Proof.
  intros st.
  destruct (malformed_body_throws "FC A FC B" st (world st) eq_refl) as (Hthrow & _).
  split; [exact Hthrow | reflexivity].
Defined.

(** The derby entry is registered as 'FC B vs FC A' only: both orders of
    the teams find it. *)
Lemma getDerbyKeywords_directions_witness :
  getDerbyKeywords "FC A" "FC B" Demo.teams_derby = ["Derby AB"; "FC A FC B"] ∧
  getDerbyKeywords "FC A" "FC B" Demo.teams_derby
    = getDerbyKeywords "FC B" "FC A" Demo.teams_derby.
Proof.
  destruct (getDerbyKeywords_directions "FC A" "FC B" Demo.teams_derby
              (list_to_map [("FC B vs FC A", Combo.mk (Some ["Derby AB"; "FC A FC B"]))])
              eq_refl) as (_ & Hsecond & Hsym).
  split.
  - rewrite Hsecond by (vm_compute; reflexivity). vm_compute. reflexivity.
  - apply Hsym. left. vm_compute. reflexivity.
Defined.

(** The pairing FC A - FC B is resolved on matchday 5. The earlier variant
    then has no candidate on matchday 23 either; the current variant, whose
    key carries the matchday, still has the fixture of matchday 23. *)
Lemma legacy_key_blocks_pairing_witness :
  hasUrl Cases.legacy_links (Legacy.matchKey_of Demo.fixture) = true ∧
  Legacy.getMatchesToSearch Demo.evening Cases.spielplan_return Cases.legacy_links (Some 23)
    = [] ∧
  Candidate.matchKey <$>
    getMatchesToSearch Demo.evening Cases.spielplan_return Demo.links (Some 23)
    = ["23_FC A - FC B"] ∧
  ∀ c, c ∈ Legacy.getMatchesToSearch Demo.evening Cases.spielplan_return
             Cases.legacy_links (Some 23) →
    ¬ (Match.home (Candidate.fixture c) = "FC A" ∧ Match.away (Candidate.fixture c) = "FC B").
Proof.
  split; [reflexivity|]. split; [reflexivity|]. split; [reflexivity|].
  apply (legacy_key_blocks_pairing Demo.evening Cases.spielplan_return Cases.legacy_links
           (Some 23) Demo.fixture).
  reflexivity.
Defined.

(** On clips of the match day that are long enough the two variants agree;
    a ten-second clip of the year before is retained by the earlier variant
    only. *)
Lemma variants_agree_on_valid_clips_witness :
  Legacy.scanResults Demo.teams Demo.fixture [Demo.broadcast; Demo.highlight] None None
    = scanResults Demo.teams Demo.fixture [Demo.broadcast; Demo.highlight] None None ∧
  Legacy.scanResults Demo.teams Demo.fixture [Cases.old_short] None None
    = (Some Cases.old_short, None) ∧
  scanResults Demo.teams Demo.fixture [Cases.old_short] None None = (None, None).
Proof.
  split; [|split; reflexivity].
  apply (variants_agree_on_valid_clips Demo.teams Demo.fixture
           [Demo.broadcast; Demo.highlight]).
  intros v [->|[->|[]%elem_of_nil]%elem_of_cons]%elem_of_cons; split; reflexivity.
Defined.

End MoreExamples.

(** A fixture is found, then the connection fails on the next fixture: the
    run ends with exit status 1 and the link found is not saved. *)
Lemma main_exit_status_witness :
  let st := Demo.start Demo.evening
              [("FC A FC B", Demo.found [Demo.highlight]); ("FC C FC D", FetchRejects)] in
  (∃ links1,
     (forMatches (H := UTC.host) Demo.teams [Candidate.mk 5 Demo.fixture "5_FC A - FC B"]
        (freshLinks (H := UTC.host) Demo.evening) 0 st).1 = Return (links1, 1)) ∧
  (main (H := UTC.host) (Demo.files Missing) (Some 5) st).1 = (Exit1, Missing).
Proof.
  intros st. split; [eexists; vm_compute; reflexivity|].
  apply (main_exit_status (H := UTC.host) (Demo.files Missing) (Some 5) st).
  right. right. exists Demo.teams, Demo.spielplan.
  split; [reflexivity|]. split; [reflexivity|]. vm_compute. reflexivity.
Defined.

(** * The date check in other time zones *)

Example Zurich_midnight_summer :
  UTC.toISOString (Zurich.setHours0 1729900800000) = "2024-10-25T22:00:00.000Z".
Proof. reflexivity. Qed.

Example Zurich_midnight_winter :
  UTC.toISOString (Zurich.setHours0 1730109600000) = "2024-10-27T23:00:00.000Z".
Proof. reflexivity. Qed.

Example Zurich_clock_changes_2024 :
  UTC.toISOString (Zurich.last_sunday 2024 3 31 * 86400000 + 3600000)
    = "2024-03-31T01:00:00.000Z" ∧
  UTC.toISOString (Zurich.last_sunday 2024 10 31 * 86400000 + 3600000)
    = "2024-10-27T01:00:00.000Z".
Proof. split; reflexivity. Qed.

Example Bogota_midnight :
  UTC.toISOString (Bogota.setHours0 1710028800000) = "2024-03-09T05:00:00.000Z".
Proof. reflexivity. Qed.

(** C7, on the code. On a host in Zurich the fixture of Saturday
    2024-10-26 and a clip of Monday 2024-10-28, two calendar days later, have
    local midnights 49 hours apart, because the clocks went back in between:
    the date check fails, the clip is not acceptable and the search ends
    without a video, although on a UTC host the same clip passes. On a host
    five hours west of UTC the fixture date 2024-03-10 is read as the local
    day 2024-03-09: a clip of 03-09, the day before the fixture, passes, and
    a clip of 03-12, two days after it, fails. *)
Theorem two_days_later_rejected :
  UTC.Date_parse "2024-10-26" = Some 1729900800000 ∧
  UTC.Date_parse "2024-10-28T10:00:00Z" = Some 1730109600000 ∧
  UTC.civil_from_days (Zurich.localDay 1729900800000) = (2024, 10, 26) ∧
  UTC.civil_from_days (Zurich.localDay 1730109600000) = (2024, 10, 28) ∧
  Zurich.setHours0 1730109600000 - Zurich.setHours0 1729900800000 = 49 * 3600000 ∧
  isVideoDateValid (H := Zurich.host) Zurich.clip "2024-10-26" = false ∧
  isAcceptable (H := Zurich.host) Demo.teams Zurich.fixture Zurich.clip = false ∧
  (searchLoop (H := Zurich.host) Demo.teams Zurich.fixture
     (combinedSearches Demo.teams Zurich.fixture) None None
     (Zurich.start 1730113200000 [("FC A FC B", Demo.found [Zurich.clip])])).1
    = Return (None, None) ∧
  isVideoDateValid (H := UTC.host) Zurich.clip "2024-10-26" = true ∧
  UTC.Date_parse "2024-03-10" = Some 1710028800000 ∧
  UTC.civil_from_days (Bogota.localDay 1710028800000) = (2024, 3, 9) ∧
  UTC.Date_parse "2024-03-09T20:00:00Z" = Some 1710014400000 ∧
  UTC.civil_from_days (Bogota.localDay 1710014400000) = (2024, 3, 9) ∧
  isVideoDateValid (H := Bogota.host) (Demo.dated "2024-03-09T20:00:00Z") "2024-03-10"
    = true ∧
  UTC.Date_parse "2024-03-12T12:00:00Z" = Some 1710244800000 ∧
  UTC.civil_from_days (Bogota.localDay 1710244800000) = (2024, 3, 12) ∧
  isVideoDateValid (H := Bogota.host) (Demo.dated "2024-03-12T12:00:00Z") "2024-03-10"
    = false.
Proof.
  repeat split; vm_compute; reflexivity.
Qed.
